(** * telebot: the long-polling loop of [bot.go] and the two answer calls

    A shallow embedding of [Bot.poll], [Bot.Listen], [Bot.Start],
    [Bot.AnswerInlineQuery] and [Bot.AnswerCallbackQuery].

    [poll] never returns.  Its behaviour is the set of finite prefixes of
    what it does: the calls to [getUpdates], the lines it logs and the sends
    on its three channels, in program order.  The answers of [getUpdates]
    are the environment: a script, one answer per iteration of the outer
    [for].  A send is recorded when it happens; how long it blocks is up to
    the reader of the channel and is not part of the model. *)

From Stdlib Require Import ZArith List String Bool Lia.
Import ListNotations.
Local Open Scope Z_scope.

(** ** Go's [int] and [time.Duration] *)

Module GoInt.

(** [int] on a 64-bit target. *)
Definition bits : Z := 64.

Definition min_int : Z := - 2 ^ (bits - 1).

Definition max_int : Z := 2 ^ (bits - 1) - 1.

(** Two's complement wrap-around of a mathematical integer. *)
Definition wrap (z : Z) : Z :=
  (z + 2 ^ (bits - 1)) mod 2 ^ bits - 2 ^ (bits - 1).

(** [x + y] on [int]. *)
Definition add (x y : Z) : Z := wrap (x + y).

(** [time.Second], in nanoseconds. *)
Definition Second : Z := 1000000000.

(** [int(timeout/time.Second)]: integer division truncates toward zero. *)
Definition seconds (timeout : Z) : Z := wrap (Z.quot timeout Second).

End GoInt.

(** An [error] is represented by its message. *)
Definition error : Type := string.

(** A channel argument of [poll]: [poll] compares it with [nil] and sends
    on it, nothing else.  The three channels have three different element
    types, so no two of them are the same channel. *)
Variant chan : Type :=
| nil_chan
| made_chan.

Definition is_nil (c : chan) : bool :=
  match c with
  | nil_chan => true
  | made_chan => false
  end.

(** ** The polling loop *)

Section Poll.

(** [Message], [Query], [Callback] and [User] are declared outside
    [bot.go]; [poll] copies the first three and never looks inside. *)
Variables Message Query Callback User : Type.

Record Bot : Type := mkBot {
  Token : string;
  Identity : User;
  Messages : chan;
  Queries : chan;
  Callbacks : chan
}.

(** [Update]: the identifier and the three optional payloads (a [nil]
    pointer is [None]). *)
Record Update : Type := mkUpdate {
  Update_ID : Z;
  Update_Payload : option Message;
  Update_Query : option Query;
  Update_Callback : option Callback
}.

(** What [poll] does, as seen from outside. *)
Inductive event : Type :=
| Ev_getUpdates (token : string) (offset timeout : Z)
| Ev_log (err : error)
| Ev_messages (m : Message)
| Ev_queries (q : Query)
| Ev_callbacks (c : Callback).

(** How an iteration of the inner [for ... range] leaves the [if] chain. *)
Variant flow : Type :=
| Fallthrough
| Continue.

(** What one call of [getUpdates] answers. *)
Inductive fetched : Type :=
| Fetch_ok (updates : list Update)
| Fetch_err (err : error).

Section Loop.

Variable b : Bot.
Variables messages queries callbacks : chan.
Variable timeout : Z.

(** The [if / else if / else if] chain of the inner loop. *)
Definition route (update : Update) : list event * flow :=
  match Update_Payload update with
  | Some m =>
      match messages with
      | nil_chan => ([], Continue)
      | made_chan => ([Ev_messages m], Fallthrough)
      end
  | None =>
      match Update_Query update with
      | Some q =>
          match queries with
          | nil_chan => ([], Continue)
          | made_chan => ([Ev_queries q], Fallthrough)
          end
      | None =>
          match Update_Callback update with
          | Some c =>
              match callbacks with
              | nil_chan => ([], Continue)
              | made_chan => ([Ev_callbacks c], Fallthrough)
              end
          | None => ([], Fallthrough)
          end
      end
  end.

(** One iteration of the inner loop: [latestUpdate = update.ID] is reached
    only when the chain was not left by [continue]. *)
Definition range_body (latestUpdate : Z) (update : Update) : list event * Z :=
  match route update with
  | (evs, Continue) => (evs, latestUpdate)
  | (evs, Fallthrough) => (evs, Update_ID update)
  end.

(** [for _, update := range updates { ... }]. *)
Fixpoint range_updates (latestUpdate : Z) (updates : list Update)
  : list event * Z :=
  match updates with
  | [] => ([], latestUpdate)
  | update :: rest =>
      let (evs, latest1) := range_body latestUpdate update in
      let (evs', latest2) := range_updates latest1 rest in
      (evs ++ evs', latest2)
  end.

(** The value of [latestUpdate] after each iteration of the inner loop. *)
Fixpoint range_cursors (latestUpdate : Z) (updates : list Update) : list Z :=
  match updates with
  | [] => []
  | update :: rest =>
      let latest1 := snd (range_body latestUpdate update) in
      latest1 :: range_cursors latest1 rest
  end.

(** One iteration of the outer [for]: the call, then either the log line
    and [continue], or the inner loop. *)
Definition cycle (latestUpdate : Z) (answer : fetched) : list event * Z :=
  let call :=
    Ev_getUpdates (Token b) (GoInt.add latestUpdate 1) (GoInt.seconds timeout) in
  match answer with
  | Fetch_err err => ([call; Ev_log err], latestUpdate)
  | Fetch_ok updates =>
      let (evs, latest1) := range_updates latestUpdate updates in
      (call :: evs, latest1)
  end.

(** The outer [for], run for as many iterations as the script has answers. *)
Fixpoint poll_from (latestUpdate : Z) (script : list fetched)
  : list event * Z :=
  match script with
  | [] => ([], latestUpdate)
  | answer :: rest =>
      let (evs, latest1) := cycle latestUpdate answer in
      let (evs', latest2) := poll_from latest1 rest in
      (evs ++ evs', latest2)
  end.

(** The successive values of [latestUpdate] over the same run. *)
Fixpoint poll_cursors (latestUpdate : Z) (script : list fetched) : list Z :=
  match script with
  | [] => []
  | Fetch_err _ :: rest => poll_cursors latestUpdate rest
  | Fetch_ok updates :: rest =>
      range_cursors latestUpdate updates
        ++ poll_cursors (snd (range_updates latestUpdate updates)) rest
  end.

(** [poll]: [latestUpdate := 0], then the loop. *)
Definition poll (script : list fetched) : list event * Z :=
  poll_from 0 script.

Definition poll_cursor_trace (script : list fetched) : list Z :=
  poll_cursors 0 script.

End Loop.

(** [Listen]: the loop it starts, with [nil] for queries and callbacks. *)
Definition Listen (b : Bot) (subscription : chan) (timeout : Z)
  (script : list fetched) : list event * Z :=
  poll b subscription nil_chan nil_chan timeout script.

(** [Start]: the loop on the bot's own three channels. *)
Definition Start (b : Bot) (timeout : Z) (script : list fetched)
  : list event * Z :=
  poll b (Messages b) (Queries b) (Callbacks b) timeout script.

(** *** Reading a trace *)

(** What each channel received, in order. *)
Definition sent_messages (evs : list event) : list Message :=
  flat_map (fun e => match e with Ev_messages m => [m] | _ => [] end) evs.

Definition sent_queries (evs : list event) : list Query :=
  flat_map (fun e => match e with Ev_queries q => [q] | _ => [] end) evs.

Definition sent_callbacks (evs : list event) : list Callback :=
  flat_map (fun e => match e with Ev_callbacks c => [c] | _ => [] end) evs.

(** The offsets [getUpdates] was called with, in order. *)
Definition fetch_offsets (evs : list event) : list Z :=
  flat_map
    (fun e => match e with Ev_getUpdates _ offset _ => [offset] | _ => [] end)
    evs.

Definition is_send (e : event) : bool :=
  match e with
  | Ev_messages _ | Ev_queries _ | Ev_callbacks _ => true
  | Ev_getUpdates _ _ _ | Ev_log _ => false
  end.

(** *** Reading a batch *)

(** The number of populated payload slots. *)
Definition slot (A : Type) (p : option A) : nat :=
  match p with
  | Some _ => 1%nat
  | None => 0%nat
  end.

Definition populated (u : Update) : nat :=
  (slot _ (Update_Payload u) + slot _ (Update_Query u)
   + slot _ (Update_Callback u))%nat.

(** The payload categories. *)
Variant category : Type :=
| Cat_message
| Cat_query
| Cat_callback.

(** The category of an update: its populated slot, the first one in the
    order Message, Query, Callback when there are several. *)
Definition category_of (u : Update) : option category :=
  match Update_Payload u, Update_Query u, Update_Callback u with
  | Some _, _, _ => Some Cat_message
  | None, Some _, _ => Some Cat_query
  | None, None, Some _ => Some Cat_callback
  | None, None, None => None
  end.

(** The update with only its first populated slot kept. *)
Definition first_populated (u : Update) : Update :=
  match Update_Payload u, Update_Query u with
  | Some m, _ => mkUpdate (Update_ID u) (Some m) None None
  | None, Some q => mkUpdate (Update_ID u) None (Some q) None
  | None, None => u
  end.

(** An update of a category whose channel is [nil]. *)
Definition unwanted (messages queries callbacks : chan) (u : Update) : bool :=
  match category_of u with
  | Some Cat_message => is_nil messages
  | Some Cat_query => is_nil queries
  | Some Cat_callback => is_nil callbacks
  | None => false
  end.

(** The payloads of one category in a batch, in batch order. *)
Definition message_payloads (updates : list Update) : list Message :=
  flat_map
    (fun u => match Update_Payload u with Some m => [m] | None => [] end)
    updates.

Definition query_payloads (updates : list Update) : list Query :=
  flat_map
    (fun u =>
       match category_of u, Update_Query u with
       | Some Cat_query, Some q => [q]
       | _, _ => []
       end)
    updates.

Definition callback_payloads (updates : list Update) : list Callback :=
  flat_map
    (fun u =>
       match category_of u, Update_Callback u with
       | Some Cat_callback, Some c => [c]
       | _, _ => []
       end)
    updates.

(** All updates of a script, in the order they were fetched. *)
Definition seen_updates (script : list fetched) : list Update :=
  flat_map
    (fun answer =>
       match answer with
       | Fetch_ok updates => updates
       | Fetch_err _ => []
       end)
    script.

Definition seen_ids (script : list fetched) : list Z :=
  map Update_ID (seen_updates script).

(** The sends of a batch, each tagged with the identifier of its update. *)
Definition deliveries (messages queries callbacks : chan)
  (updates : list Update) : list (Z * event) :=
  flat_map
    (fun u =>
       map (pair (Update_ID u)) (fst (route messages queries callbacks u)))
    updates.

End Poll.

Arguments mkBot {User}.
Arguments Token {User}.
Arguments Identity {User}.
Arguments Messages {User}.
Arguments Queries {User}.
Arguments Callbacks {User}.
Arguments mkUpdate {Message Query Callback}.
Arguments Update_ID {Message Query Callback}.
Arguments Update_Payload {Message Query Callback}.
Arguments Update_Query {Message Query Callback}.
Arguments Update_Callback {Message Query Callback}.
Arguments Ev_getUpdates {Message Query Callback}.
Arguments Ev_log {Message Query Callback}.
Arguments Ev_messages {Message Query Callback}.
Arguments Ev_queries {Message Query Callback}.
Arguments Ev_callbacks {Message Query Callback}.
Arguments Fetch_ok {Message Query Callback}.
Arguments Fetch_err {Message Query Callback}.
Arguments route {Message Query Callback}.
Arguments range_body {Message Query Callback}.
Arguments range_updates {Message Query Callback}.
Arguments range_cursors {Message Query Callback}.
Arguments cycle {Message Query Callback User}.
Arguments poll_from {Message Query Callback User}.
Arguments poll_cursors {Message Query Callback}.
Arguments poll {Message Query Callback User}.
Arguments poll_cursor_trace {Message Query Callback}.
Arguments Listen {Message Query Callback User}.
Arguments Start {Message Query Callback User}.
Arguments sent_messages {Message Query Callback}.
Arguments sent_queries {Message Query Callback}.
Arguments sent_callbacks {Message Query Callback}.
Arguments fetch_offsets {Message Query Callback}.
Arguments is_send {Message Query Callback}.
Arguments populated {Message Query Callback}.
Arguments category_of {Message Query Callback}.
Arguments first_populated {Message Query Callback}.
Arguments unwanted {Message Query Callback}.
Arguments message_payloads {Message Query Callback}.
Arguments query_payloads {Message Query Callback}.
Arguments callback_payloads {Message Query Callback}.
Arguments seen_updates {Message Query Callback}.
Arguments seen_ids {Message Query Callback}.
Arguments deliveries {Message Query Callback}.

(** ** Lists of identifiers *)

(** The largest identifier of a list, 0 for the empty list: the cursor
    starts at 0. *)
Definition max_id (ids : list Z) : Z := fold_right Z.max 0 ids.

Fixpoint non_decreasing (l : list Z) : bool :=
  match l with
  | [] => true
  | x :: rest =>
      match rest with
      | [] => true
      | y :: _ => (x <=? y) && non_decreasing rest
      end
  end.

(** ** Answering a query or a callback *)

Section Answer.

(** [Query], [Callback], [QueryResponse] and [CallbackResponse] are declared
    outside [bot.go].  The fields [bot.go] names are kept; the others are
    one field of a type left open. *)
Variables QueryFields CallbackFields : Type.
Variables QueryResponseFields CallbackResponseFields : Type.

Record Query : Type := mkQuery {
  Query_ID : string;
  Query_fields : QueryFields
}.

Record Callback : Type := mkCallback {
  Callback_ID : string;
  Callback_fields : CallbackFields
}.

Record QueryResponse : Type := mkQueryResponse {
  QueryResponse_QueryID : string;
  QueryResponse_fields : QueryResponseFields
}.

Record CallbackResponse : Type := mkCallbackResponse {
  CallbackResponse_CallbackID : string;
  CallbackResponse_fields : CallbackResponseFields
}.

(** The anonymous [struct { Ok bool; Description string }]. *)
Record responseRecieved : Type := mkResponseRecieved {
  Ok : bool;
  Description : string
}.

(** What the two functions hand to [sendCommand] as [params]. *)
Inductive params : Type :=
| Params_QueryResponse (response : QueryResponse)
| Params_CallbackResponse (response : CallbackResponse).

(** [sendCommand(method, token, params)] is declared outside [bot.go]: it
    performs the remote call and returns the raw body and an error.  It is
    given the object [response] points to as it is at the call. *)
Variable sendCommand : string -> string -> params -> string * option error.

(** [json.Unmarshal(data, &v)]: the decoded [v] and an error. *)
Variable json_Unmarshal :
  string -> responseRecieved -> responseRecieved * option error.

(** What a call leaves behind: a nil dereference, or the object [response]
    points to after the call together with the returned error. *)
Inductive answered (R : Type) : Type :=
| Panic
| Return (response : R) (err : option error).

(** The tail shared by both functions, from the result of [sendCommand]
    on. *)
Definition decode (sent : string * option error) : option error :=
  let (responseJSON, err) := sent in
  match err with
  | Some e => Some e
  | None =>
      let (recieved, err) :=
        json_Unmarshal responseJSON (mkResponseRecieved false EmptyString) in
      match err with
      | Some e => Some e
      | None =>
          if negb (Ok recieved)
          then Some (String.append "telebot: " (Description recieved))
          else None
      end
  end.

(** [AnswerInlineQuery]; a [nil] pointer is [None]. *)
Definition AnswerInlineQuery (token : string) (query : option Query)
  (response : option QueryResponse) : answered QueryResponse :=
  match query, response with
  | Some q, Some r =>
      let r := mkQueryResponse (Query_ID q) (QueryResponse_fields r) in
      Return _ r
        (decode (sendCommand "answerInlineQuery" token (Params_QueryResponse r)))
  | _, _ => Panic _
  end.

(** [AnswerCallbackQuery]; a [nil] pointer is [None]. *)
Definition AnswerCallbackQuery (token : string) (callback : option Callback)
  (response : option CallbackResponse) : answered CallbackResponse :=
  match callback, response with
  | Some c, Some r =>
      let r := mkCallbackResponse (Callback_ID c) (CallbackResponse_fields r) in
      Return _ r
        (decode
           (sendCommand "answerCallbackQuery" token (Params_CallbackResponse r)))
  | _, _ => Panic _
  end.

End Answer.

Arguments mkQuery {QueryFields}.
Arguments mkCallback {CallbackFields}.
Arguments mkQueryResponse {QueryResponseFields}.
Arguments mkCallbackResponse {CallbackResponseFields}.
Arguments Query_ID {QueryFields}.
Arguments Callback_ID {CallbackFields}.
Arguments QueryResponse_QueryID {QueryResponseFields}.
Arguments QueryResponse_fields {QueryResponseFields}.
Arguments CallbackResponse_CallbackID {CallbackResponseFields}.
Arguments CallbackResponse_fields {CallbackResponseFields}.
Arguments Params_QueryResponse {QueryResponseFields CallbackResponseFields}.
Arguments Params_CallbackResponse {QueryResponseFields CallbackResponseFields}.
Arguments Panic {R}.
Arguments Return {R}.
Arguments decode json_Unmarshal sent : assert.
Arguments AnswerInlineQuery {QueryFields QueryResponseFields CallbackResponseFields}.
Arguments AnswerCallbackQuery {CallbackFields QueryResponseFields CallbackResponseFields}.

(** ** Building a bot, and more ways to read a run *)

(** [NewBot]: [getMe] is declared outside [bot.go] and returns the identity
    and an error.  The literal [&Bot{Token: token, Identity: user}] leaves
    the three channels at their zero value, [nil].  A [nil] bot is [None]. *)
Definition NewBot (User : Type) (getMe : string -> User * option error)
  (token : string) : option (Bot User) * option error :=
  let (user, err) := getMe token in
  match err with
  | Some e => (None, Some e)
  | None => (Some (mkBot token user nil_chan nil_chan nil_chan), None)
  end.

Arguments NewBot {User}.

Section Reading.

Variables Message Query Callback : Type.

(** The calls of [getUpdates] with all three arguments, in order. *)
Definition fetch_calls (evs : list (event Message Query Callback))
  : list (string * Z * Z) :=
  flat_map
    (fun e =>
       match e with
       | Ev_getUpdates token offset timeout => [(token, offset, timeout)]
       | _ => []
       end)
    evs.

(** The errors logged, in order. *)
Definition logged (evs : list (event Message Query Callback)) : list error :=
  flat_map (fun e => match e with Ev_log err => [err] | _ => [] end) evs.

(** The errors [getUpdates] answered with, in order. *)
Definition fetch_errors (script : list (fetched Message Query Callback))
  : list error :=
  flat_map
    (fun answer =>
       match answer with
       | Fetch_err err => [err]
       | Fetch_ok _ => []
       end)
    script.

(** The updates of a list that are not dropped for a [nil] channel. *)
Definition kept (messages queries callbacks : chan)
  (updates : list (Update Message Query Callback))
  : list (Update Message Query Callback) :=
  filter (fun u => negb (unwanted messages queries callbacks u)) updates.

End Reading.

Arguments fetch_calls {Message Query Callback}.
Arguments logged {Message Query Callback}.
Arguments fetch_errors {Message Query Callback}.
Arguments kept {Message Query Callback}.

(** ** Sending *)

(** [map[string]string]: a list of bindings in which the newest binding of
    a key is the one in force. *)
Definition Params : Type := list (string * string).

Fixpoint Params_get (key : string) (m : Params) : option string :=
  match m with
  | [] => None
  | (k, v) :: rest => if String.eqb key k then Some v else Params_get key rest
  end.

(** [m[key] = value]. *)
Definition Params_set (key value : string) (m : Params) : Params :=
  (key, value) :: m.

(** The interface [Recipient]: [bot.go] calls its method [Destination].  An
    [R] is a recipient that is there: on a [nil] interface value the call of
    [Destination] panics before any remote call, and the functions below
    are not defined on it. *)
Class Recipient (R : Type) : Type := {
  Destination : R -> string
}.

(** The two remote operations [bot.go] uses, with their arguments.  They
    are declared outside [bot.go] and return the raw body and an error. *)
Inductive call : Type :=
| Call_sendCommand (method token : string) (params : Params)
| Call_sendFile (method token name path : string) (params : Params).

Section Send.

(** Declared outside [bot.go].  [bot.go] reads [FileID] and [filename] and
    calls [Exists] on a photo, an audio, a document, a sticker and a video,
    and assigns [photo.File] from [thumbnail.File]: these are the fields and
    the method of the [File] each of them embeds.  The fields [bot.go] does
    not name are one field of a type left open. *)
Variables FileFields PhotoFields ThumbnailFields : Type.
Variables AudioFields DocumentFields StickerFields VideoFields : Type.
Variables Message SendOptions Result : Type.

Record File : Type := mkFile {
  File_FileID : string;
  File_filename : string;
  File_fields : FileFields
}.

(** [Audio], [Document], [Sticker] and [Video]. *)
Record Media (F : Type) : Type := mkMedia {
  Media_File : File;
  Media_fields : F
}.

Record Photo : Type := mkPhoto {
  Photo_File : File;
  Photo_Caption : string;
  Photo_fields : PhotoFields
}.

Record Thumbnail : Type := mkThumbnail {
  Thumbnail_File : File;
  Thumbnail_fields : ThumbnailFields
}.

(** [x.filename = filename] on the embedded [File]. *)
Definition File_set_filename (f : File) (filename : string) : File :=
  mkFile (File_FileID f) filename (File_fields f).

Variable Exists : File -> bool.

(** The zero [Message] and the fields of a [Message] that [bot.go] reads. *)
Variable zero_Message : Message.
Variable Message_Photo : Message -> list Thumbnail.
Variable Message_Audio : Message -> Media AudioFields.
Variable Message_Document : Message -> Media DocumentFields.
Variable Message_Sticker : Message -> Media StickerFields.
Variable Message_Video : Message -> Media VideoFields.

(** [embedSendOptions(params, options)] writes into [params]. *)
Variable embedSendOptions : Params -> SendOptions -> Params.

(** [json.Marshal(results)]. *)
Variable json_Marshal : list Result -> string * option error.

(** [messageResponseReceived]. *)
Record messageResponseReceived : Type := mkMessageResponseReceived {
  Received_Ok : bool;
  Received_Result : Message;
  Received_Description : string
}.

(** [json.Unmarshal] into a [messageResponseReceived], and into the
    [{Ok, Description}] struct of [Respond]. *)
Variable json_Unmarshal_received :
  string -> messageResponseReceived -> messageResponseReceived * option error.

Variable json_Unmarshal :
  string -> responseRecieved -> responseRecieved * option error.

(** What the remote answers to a call. *)
Variable remote : call -> string * option error.

Variable token : string.

Context {R : Type} {Recipient_R : Recipient R}.

(** [if options != nil { embedSendOptions(params, options) }]. *)
Definition embed (params : Params) (options : option SendOptions) : Params :=
  match options with
  | Some o => embedSendOptions params o
  | None => params
  end.

(** From the result of the remote call on, as the five [Send...] functions
    with a file have it: the returned [Message] is [responseRecieved.Result]
    at the point of return. *)
Definition receive (sent : string * option error) : Message * option error :=
  let (responseJSON, err) := sent in
  match err with
  | Some e => (zero_Message, Some e)
  | None =>
      let (received, err) :=
        json_Unmarshal_received responseJSON
          (mkMessageResponseReceived false zero_Message EmptyString) in
      match err with
      | Some e => (Received_Result received, Some e)
      | None =>
          if negb (Received_Ok received)
          then (Received_Result received,
                Some (String.append "telebot: " (Received_Description received)))
          else (Received_Result received, None)
      end
  end.

(** [Respond]: nothing is sent when [results] cannot be marshalled. *)
Definition Respond (QueryFields : Type) (query : Query QueryFields)
  (results : list Result) : list call * option error :=
  let params := Params_set "inline_query_id" (Query_ID query) [] in
  let (res, err) := json_Marshal results in
  match err with
  | Some e => ([], Some e)
  | None =>
      let c :=
        Call_sendCommand "answerInlineQuery" token
          (Params_set "results" res params) in
      ([c], decode json_Unmarshal (remote c))
  end.

(** What a [Send...] function with a file leaves behind: a panic, or the
    object its pointer refers to after the call, the message and the error;
    in both cases with the calls made until then. *)
Inductive sent (O : Type) : Type :=
| Send_panic (calls : list call)
| Send_return (calls : list call) (object : O) (result : Message)
    (err : option error).

(** [SendAudio], [SendDocument], [SendSticker] and [SendVideo] are the same
    function up to the method, the name of the file parameter and the field
    of the answer that is copied back.  A [nil] object is [None]: it panics
    at [Exists], before any call. *)
Definition send_media (F : Type) (method name : string)
  (Message_field : Message -> Media F)
  (recipient : R) (object : option (Media F)) (options : option SendOptions)
  : sent (Media F) :=
  match object with
  | None => Send_panic _ []
  | Some o =>
      let params :=
        embed (Params_set "chat_id" (Destination recipient) []) options in
      let c :=
        if Exists (Media_File _ o)
        then Call_sendCommand method token
               (Params_set name (File_FileID (Media_File _ o)) params)
        else Call_sendFile method token name
               (File_filename (Media_File _ o)) params in
      match receive (remote c) with
      | (result, Some e) => Send_return _ [c] o result (Some e)
      | (result, None) =>
          let filename := File_filename (Media_File _ o) in
          let o' := Message_field result in
          Send_return _ [c]
            (mkMedia _ (File_set_filename (Media_File _ o') filename)
               (Media_fields _ o'))
            result None
      end
  end.

Definition SendAudio := send_media AudioFields "sendAudio" "audio" Message_Audio.

Definition SendDocument :=
  send_media DocumentFields "sendDocument" "document" Message_Document.

Definition SendSticker :=
  send_media StickerFields "sendSticker" "sticker" Message_Sticker.

Definition SendVideo := send_media VideoFields "sendVideo" "video" Message_Video.

(** The element of the thumbnails at index [len - 1]: the last one, or an
    index out of range. *)
Definition last_thumbnail (thumbnails : list Thumbnail) : option Thumbnail :=
  match rev thumbnails with
  | [] => None
  | t :: _ => Some t
  end.

(** [SendPhoto].  A [nil] photo panics at [photo.Caption], before any
    call. *)
Definition SendPhoto (recipient : R) (photo : option Photo)
  (options : option SendOptions) : sent Photo :=
  match photo with
  | None => Send_panic _ []
  | Some p =>
      let params :=
        embed
          (Params_set "caption" (Photo_Caption p)
             (Params_set "chat_id" (Destination recipient) []))
          options in
      let c :=
        if Exists (Photo_File p)
        then Call_sendCommand "sendPhoto" token
               (Params_set "photo" (File_FileID (Photo_File p)) params)
        else Call_sendFile "sendPhoto" token "photo"
               (File_filename (Photo_File p)) params in
      match receive (remote c) with
      | (result, Some e) => Send_return _ [c] p result (Some e)
      | (result, None) =>
          let filename := File_filename (Photo_File p) in
          match last_thumbnail (Message_Photo result) with
          | None => Send_panic _ [c]
          | Some t =>
              Send_return _ [c]
                (mkPhoto (File_set_filename (Thumbnail_File t) filename)
                   (Photo_Caption p) (Photo_fields p))
                result None
          end
      end
  end.

(** The calls a [Send...] function has made. *)
Definition calls_of (O : Type) (s : sent O) : list call :=
  match s with
  | Send_panic _ calls => calls
  | Send_return _ calls _ _ _ => calls
  end.

End Send.

Arguments mkFile {FileFields}.
Arguments File_FileID {FileFields}.
Arguments File_filename {FileFields}.
Arguments File_fields {FileFields}.
Arguments mkMedia {FileFields F}.
Arguments Media_File {FileFields F}.
Arguments Media_fields {FileFields F}.
Arguments mkPhoto {FileFields PhotoFields}.
Arguments Photo_File {FileFields PhotoFields}.
Arguments Photo_Caption {FileFields PhotoFields}.
Arguments Photo_fields {FileFields PhotoFields}.
Arguments mkThumbnail {FileFields ThumbnailFields}.
Arguments Thumbnail_File {FileFields ThumbnailFields}.
Arguments Thumbnail_fields {FileFields ThumbnailFields}.
Arguments File_set_filename {FileFields}.
Arguments mkMessageResponseReceived {Message}.
Arguments Received_Ok {Message}.
Arguments Received_Result {Message}.
Arguments Received_Description {Message}.
Arguments Send_panic {Message O}.
Arguments Send_return {Message O}.
Arguments calls_of {Message O}.
Arguments last_thumbnail {FileFields ThumbnailFields}.
Arguments embed {SendOptions}.
Arguments receive {Message}.
Arguments Respond {Result} _ _ _ _ {QueryFields}.
Arguments send_media {FileFields Message SendOptions} _ _ _ _ _ _
  {R Recipient_R} {F}.
Arguments SendAudio {FileFields AudioFields Message SendOptions} _ _ _ _ _ _ _
  {R Recipient_R}.
Arguments SendDocument {FileFields DocumentFields Message SendOptions}
  _ _ _ _ _ _ _ {R Recipient_R}.
Arguments SendSticker {FileFields StickerFields Message SendOptions}
  _ _ _ _ _ _ _ {R Recipient_R}.
Arguments SendVideo {FileFields VideoFields Message SendOptions} _ _ _ _ _ _ _
  {R Recipient_R}.
Arguments SendPhoto {FileFields PhotoFields ThumbnailFields Message SendOptions}
  _ _ _ _ _ _ _ {R Recipient_R}.

(** ** A small world to run the sending functions in *)

Module World.

Local Open Scope string_scope.

(** A message is its photo sizes and its audio; a file exists when it has
    an identifier; chats are named by strings. *)
Definition Message : Type := (list (Thumbnail unit unit) * Media unit unit)%type.

Definition zero_Message : Message := ([], mkMedia (mkFile "" "" tt) tt).

Definition Exists (f : File unit) : bool :=
  negb (String.eqb (File_FileID f) "").

Definition chat : Recipient string := {| Destination := fun s => s |}.

(** Send options that try to take the file parameter. *)
Definition embedSendOptions (params : Params) (_ : unit) : Params :=
  Params_set "audio" "from the options" (Params_set "photo" "from the options" params).

(** The body [ok] decodes to an ok answer with two photo sizes and an
    audio, the body [no sizes] to an ok answer without photo sizes, any
    other body does not decode. *)
Definition json_Unmarshal_received (body : string)
  (into : messageResponseReceived Message)
  : messageResponseReceived Message * option error :=
  if String.eqb body "ok"
  then (mkMessageResponseReceived true
          ([mkThumbnail (mkFile "small" "" tt) tt;
            mkThumbnail (mkFile "large" "" tt) tt],
           mkMedia (mkFile "on the server" "" tt) tt)
          "",
        None)
  else if String.eqb body "no sizes"
  then (mkMessageResponseReceived true zero_Message "", None)
  else (into, Some "unexpected end of JSON input").

Definition answers (body : string) (_ : call) : string * option error :=
  (body, None).

End World.

(** * Properties *)

(** ** The shape of a run *)

Section PollFacts.

Variables Message Query Callback User : Type.
Variable b : Bot User.
Variables messages queries callbacks : chan.
Variable timeout : Z.

Local Abbreviation update := (Update Message Query Callback).
Local Abbreviation route' := (@route Message Query Callback messages queries callbacks).
Local Abbreviation range_body' :=
  (@range_body Message Query Callback messages queries callbacks).
Local Abbreviation range_updates' :=
  (@range_updates Message Query Callback messages queries callbacks).
Local Abbreviation range_cursors' :=
  (@range_cursors Message Query Callback messages queries callbacks).
Local Abbreviation cycle' :=
  (@cycle Message Query Callback User b messages queries callbacks timeout).
Local Abbreviation poll_from' :=
  (@poll_from Message Query Callback User b messages queries callbacks timeout).
Local Abbreviation poll_cursors' :=
  (@poll_cursors Message Query Callback messages queries callbacks).

Lemma range_body_fst (latest : Z) (u : update) :
  fst (range_body' latest u) = fst (route' u).
Proof.
  unfold range_body. destruct (route' u) as [evs []]; reflexivity.
Qed.

Lemma range_body_snd (latest : Z) (u : update) :
  snd (range_body' latest u) =
  if unwanted messages queries callbacks u then latest else Update_ID u.
Proof.
  unfold range_body, route, unwanted, category_of.
  destruct (Update_Payload u), (Update_Query u), (Update_Callback u),
    messages, queries, callbacks; reflexivity.
Qed.

(** The events of a batch do not depend on the cursor: they are the events
    of its updates, one update after the other. *)
Lemma range_updates_fst (latest : Z) (us : list update) :
  fst (range_updates' latest us) = flat_map (fun u => fst (route' u)) us.
Proof.
  revert latest. induction us as [|u us IH]; intros latest; simpl.
  - reflexivity.
  - rewrite <- (IH (snd (range_body' latest u))), <- (range_body_fst latest u).
    destruct (range_body' latest u) as [e1 l1]; simpl.
    destruct (range_updates' l1 us); reflexivity.
Qed.

Lemma range_updates_cons (latest : Z) (u : update) (us : list update) :
  range_updates' latest (u :: us) =
  (fst (route' u) ++ fst (range_updates' (snd (range_body' latest u)) us),
   snd (range_updates' (snd (range_body' latest u)) us)).
Proof.
  simpl. rewrite <- (range_body_fst latest u).
  destruct (range_body' latest u) as [e1 l1]; simpl.
  destruct (range_updates' l1 us); reflexivity.
Qed.

Lemma range_updates_app (latest : Z) (us1 us2 : list update) :
  range_updates' latest (us1 ++ us2) =
  (fst (range_updates' latest us1)
     ++ fst (range_updates' (snd (range_updates' latest us1)) us2),
   snd (range_updates' (snd (range_updates' latest us1)) us2)).
Proof.
  revert latest. induction us1 as [|u us1 IH]; intros latest.
  - simpl. destruct (range_updates' latest us2); reflexivity.
  - rewrite <- app_comm_cons, !range_updates_cons, IH; simpl.
    rewrite app_assoc. reflexivity.
Qed.

Lemma poll_from_cons (latest : Z) (a : fetched Message Query Callback)
  (script : list (fetched Message Query Callback)) :
  poll_from' latest (a :: script) =
  (fst (cycle' latest a) ++ fst (poll_from' (snd (cycle' latest a)) script),
   snd (poll_from' (snd (cycle' latest a)) script)).
Proof.
  simpl. destruct (cycle' latest a) as [e1 l1]; simpl.
  destruct (poll_from' l1 script); reflexivity.
Qed.

(** The loop has no exit: after any script it goes on with the next answer,
    from the cursor it has reached. *)
Lemma poll_from_app (latest : Z) (s1 s2 : list (fetched Message Query Callback)) :
  poll_from' latest (s1 ++ s2) =
  (fst (poll_from' latest s1) ++ fst (poll_from' (snd (poll_from' latest s1)) s2),
   snd (poll_from' (snd (poll_from' latest s1)) s2)).
Proof.
  revert latest. induction s1 as [|a s1 IH]; intros latest.
  - simpl. destruct (poll_from' latest s2); reflexivity.
  - rewrite <- app_comm_cons, !poll_from_cons, IH; simpl.
    rewrite app_assoc. reflexivity.
Qed.

Lemma cycle_fst (latest : Z) (a : fetched Message Query Callback) :
  fst (cycle' latest a) =
  Ev_getUpdates (Token b) (GoInt.add latest 1) (GoInt.seconds timeout)
    :: match a with
       | Fetch_ok us => flat_map (fun u => fst (route' u)) us
       | Fetch_err err => [Ev_log err]
       end.
Proof.
  destruct a as [us|err]; simpl.
  - rewrite <- (range_updates_fst latest us).
    destruct (range_updates' latest us); reflexivity.
  - reflexivity.
Qed.

Lemma cycle_snd (latest : Z) (a : fetched Message Query Callback) :
  snd (cycle' latest a) =
  match a with
  | Fetch_ok us => snd (range_updates' latest us)
  | Fetch_err _ => latest
  end.
Proof.
  destruct a as [us|err]; simpl.
  - destruct (range_updates' latest us); reflexivity.
  - reflexivity.
Qed.


(** No update makes [poll] call [getUpdates] or log. *)
Lemma route_is_send (u : update) :
  forallb (@is_send Message Query Callback) (fst (route' u)) = true.
Proof.
  unfold route.
  destruct (Update_Payload u), (Update_Query u), (Update_Callback u),
    messages, queries, callbacks; reflexivity.
Qed.

Lemma fetch_offsets_sends (evs : list (event Message Query Callback)) :
  forallb (@is_send Message Query Callback) evs = true -> fetch_offsets evs = [].
Proof.
  induction evs as [|e evs IH]; simpl; [reflexivity|].
  intros H. apply andb_true_iff in H as [He Hevs].
  rewrite (IH Hevs). destruct e; simpl in *; congruence.
Qed.

Lemma batch_is_send (us : list update) :
  forallb (@is_send Message Query Callback)
    (flat_map (fun u => fst (route' u)) us) = true.
Proof.
  induction us as [|u us IH]; simpl; [reflexivity|].
  rewrite forallb_app, route_is_send, IH. reflexivity.
Qed.

(** Each cycle calls [getUpdates] once, with [latestUpdate+1]. *)
Lemma fetch_offsets_cycle (latest : Z) (a : fetched Message Query Callback) :
  fetch_offsets (fst (cycle' latest a)) = [GoInt.add latest 1].
Proof.
  rewrite cycle_fst. destruct a as [us|err]; simpl.
  - rewrite (fetch_offsets_sends _ (batch_is_send us)). reflexivity.
  - reflexivity.
Qed.

Lemma fetch_offsets_snoc (latest : Z)
  (script : list (fetched Message Query Callback))
  (a : fetched Message Query Callback) :
  fetch_offsets (fst (poll_from' latest (script ++ [a]))) =
  fetch_offsets (fst (poll_from' latest script))
    ++ [GoInt.add (snd (poll_from' latest script)) 1].
Proof.
  rewrite poll_from_app, poll_from_cons. cbn [fst snd poll_from].
  rewrite app_nil_r. unfold fetch_offsets at 1. rewrite flat_map_app.
  f_equal. apply fetch_offsets_cycle.
Qed.

(** *** What each channel receives *)

Lemma sent_messages_route (u : update) :
  sent_messages (fst (route' u)) =
  if is_nil messages then []
  else match Update_Payload u with Some m => [m] | None => [] end.
Proof.
  unfold route.
  destruct (Update_Payload u), (Update_Query u), (Update_Callback u),
    messages, queries, callbacks; reflexivity.
Qed.

Lemma sent_queries_route (u : update) :
  sent_queries (fst (route' u)) =
  if is_nil queries then []
  else match category_of u, Update_Query u with
       | Some Cat_query, Some q => [q]
       | _, _ => []
       end.
Proof.
  unfold route, category_of.
  destruct (Update_Payload u), (Update_Query u), (Update_Callback u),
    messages, queries, callbacks; reflexivity.
Qed.

Lemma sent_callbacks_route (u : update) :
  sent_callbacks (fst (route' u)) =
  if is_nil callbacks then []
  else match category_of u, Update_Callback u with
       | Some Cat_callback, Some c => [c]
       | _, _ => []
       end.
Proof.
  unfold route, category_of.
  destruct (Update_Payload u), (Update_Query u), (Update_Callback u),
    messages, queries, callbacks; reflexivity.
Qed.

Lemma sent_messages_batch (us : list update) :
  sent_messages (flat_map (fun u => fst (route' u)) us) =
  if is_nil messages then [] else message_payloads us.
Proof.
  induction us as [|u us IH]; simpl.
  - destruct (is_nil messages); reflexivity.
  - unfold sent_messages in *. rewrite flat_map_app, IH.
    fold (@sent_messages Message Query Callback (fst (route' u))).
    rewrite sent_messages_route. destruct (is_nil messages); reflexivity.
Qed.

Lemma sent_queries_batch (us : list update) :
  sent_queries (flat_map (fun u => fst (route' u)) us) =
  if is_nil queries then [] else query_payloads us.
Proof.
  induction us as [|u us IH]; simpl.
  - destruct (is_nil queries); reflexivity.
  - unfold sent_queries in *. rewrite flat_map_app, IH.
    fold (@sent_queries Message Query Callback (fst (route' u))).
    rewrite sent_queries_route. destruct (is_nil queries); reflexivity.
Qed.

Lemma sent_callbacks_batch (us : list update) :
  sent_callbacks (flat_map (fun u => fst (route' u)) us) =
  if is_nil callbacks then [] else callback_payloads us.
Proof.
  induction us as [|u us IH]; simpl.
  - destruct (is_nil callbacks); reflexivity.
  - unfold sent_callbacks in *. rewrite flat_map_app, IH.
    fold (@sent_callbacks Message Query Callback (fst (route' u))).
    rewrite sent_callbacks_route. destruct (is_nil callbacks); reflexivity.
Qed.

(** The sends of a whole run are the sends of its batches, one batch after
    the other. *)
Lemma poll_from_sends (latest : Z)
  (script : list (fetched Message Query Callback)) :
  filter (@is_send Message Query Callback) (fst (poll_from' latest script)) =
  flat_map (fun u => fst (route' u)) (seen_updates script).
Proof.
  revert latest. induction script as [|a script IH]; intros latest.
  - reflexivity.
  - rewrite poll_from_cons, cycle_fst; cbn [fst].
    simpl filter. rewrite filter_app, IH. simpl seen_updates.
    rewrite flat_map_app. f_equal.
    destruct a as [us|err]; simpl; [|reflexivity].
    pose proof (batch_is_send us) as H.
    induction (flat_map (fun u => fst (route' u)) us) as [|e evs IHe];
      simpl in *; [reflexivity|].
    apply andb_true_iff in H as [He Hevs]. rewrite He, (IHe Hevs). reflexivity.
Qed.

Lemma sent_messages_filter (evs : list (event Message Query Callback)) :
  sent_messages (filter (@is_send Message Query Callback) evs) = sent_messages evs.
Proof.
  induction evs as [|e evs IH]; simpl; [reflexivity|].
  destruct e; simpl; rewrite ?IH; reflexivity.
Qed.

Lemma sent_queries_filter (evs : list (event Message Query Callback)) :
  sent_queries (filter (@is_send Message Query Callback) evs) = sent_queries evs.
Proof.
  induction evs as [|e evs IH]; simpl; [reflexivity|].
  destruct e; simpl; rewrite ?IH; reflexivity.
Qed.

Lemma sent_callbacks_filter (evs : list (event Message Query Callback)) :
  sent_callbacks (filter (@is_send Message Query Callback) evs)
  = sent_callbacks evs.
Proof.
  induction evs as [|e evs IH]; simpl; [reflexivity|].
  destruct e; simpl; rewrite ?IH; reflexivity.
Qed.

Lemma poll_from_sent_messages (latest : Z)
  (script : list (fetched Message Query Callback)) :
  sent_messages (fst (poll_from' latest script)) =
  if is_nil messages then [] else message_payloads (seen_updates script).
Proof.
  rewrite <- sent_messages_filter, poll_from_sends. apply sent_messages_batch.
Qed.

Lemma poll_from_sent_queries (latest : Z)
  (script : list (fetched Message Query Callback)) :
  sent_queries (fst (poll_from' latest script)) =
  if is_nil queries then [] else query_payloads (seen_updates script).
Proof.
  rewrite <- sent_queries_filter, poll_from_sends. apply sent_queries_batch.
Qed.

Lemma poll_from_sent_callbacks (latest : Z)
  (script : list (fetched Message Query Callback)) :
  sent_callbacks (fst (poll_from' latest script)) =
  if is_nil callbacks then [] else callback_payloads (seen_updates script).
Proof.
  rewrite <- sent_callbacks_filter, poll_from_sends. apply sent_callbacks_batch.
Qed.

End PollFacts.

Arguments range_body_fst {Message Query Callback}.
Arguments range_body_snd {Message Query Callback}.
Arguments range_updates_fst {Message Query Callback}.
Arguments range_updates_cons {Message Query Callback}.
Arguments range_updates_app {Message Query Callback}.
Arguments poll_from_cons {Message Query Callback User}.
Arguments poll_from_app {Message Query Callback User}.
Arguments cycle_fst {Message Query Callback User}.
Arguments cycle_snd {Message Query Callback User}.
Arguments fetch_offsets_cycle {Message Query Callback User}.
Arguments fetch_offsets_snoc {Message Query Callback User}.
Arguments sent_messages_route {Message Query Callback}.
Arguments sent_queries_route {Message Query Callback}.
Arguments sent_callbacks_route {Message Query Callback}.
Arguments sent_messages_batch {Message Query Callback}.
Arguments sent_queries_batch {Message Query Callback}.
Arguments sent_callbacks_batch {Message Query Callback}.
Arguments poll_from_sends {Message Query Callback User}.
Arguments poll_from_sent_messages {Message Query Callback User}.
Arguments poll_from_sent_queries {Message Query Callback User}.
Arguments poll_from_sent_callbacks {Message Query Callback User}.

(** ** One batch, two channels *)

(** C7: when [getUpdates] answers [{5, Message hi}; {6, Query q1}] and the
    message and query channels are set, the first cycle sends exactly [hi]
    on the message channel, exactly [q1] on the query channel, nothing on
    the callback channel, and leaves the cursor at 6. *)
Theorem poll_end_to_end :
  forall (Message Query Callback User : Type) (b : Bot User)
         (callbacks : chan) (timeout : Z) (hi : Message) (q1 : Query),
    let batch : list (Update Message Query Callback) :=
      [mkUpdate 5 (Some hi) None None; mkUpdate 6 None (Some q1) None] in
    let run := poll b made_chan made_chan callbacks timeout [Fetch_ok batch] in
    fst run = [Ev_getUpdates (Token b) 1 (GoInt.seconds timeout);
               Ev_messages hi; Ev_queries q1]
    /\ sent_messages (fst run) = [hi]
    /\ sent_queries (fst run) = [q1]
    /\ sent_callbacks (fst run) = []
    /\ snd run = 6.
Proof.
  intros. subst run batch. cbn. repeat split; reflexivity.
Qed.

(** C1, what the code does: with the query channel [nil], the same batch
    sends [hi] on the message channel and leaves the cursor at 5, not at 6:
    [continue] skips [latestUpdate = update.ID], and the next call asks for
    update 6 again. *)
Theorem poll_dropped_query_keeps_cursor :
  forall (Message Query Callback User : Type) (b : Bot User)
         (callbacks : chan) (timeout : Z) (hi : Message) (q1 : Query)
         (next : fetched Message Query Callback),
    let batch : list (Update Message Query Callback) :=
      [mkUpdate 5 (Some hi) None None; mkUpdate 6 None (Some q1) None] in
    let run := poll b made_chan nil_chan callbacks timeout [Fetch_ok batch] in
    let run' :=
      poll b made_chan nil_chan callbacks timeout [Fetch_ok batch; next] in
    sent_messages (fst run) = [hi]
    /\ sent_queries (fst run) = []
    /\ snd run = 5
    /\ snd run <> 6
    /\ fetch_offsets (fst run') = [1; 6].
Proof.
  intros. subst run run' batch.
  repeat split; try reflexivity; try (cbn; discriminate).
  unfold poll.
  exact (fetch_offsets_snoc b made_chan nil_chan callbacks timeout 0
           [Fetch_ok [mkUpdate 5 (Some hi) None None;
                      mkUpdate 6 None (Some q1) None]] next).
Qed.

(** ** Updates without a single payload *)

(** C6: an update with no populated slot sends nothing and logs nothing
    (the batch leaves the same events with it as without it), and the
    cursor is set to its identifier, so that the call after a batch it ends
    asks for the identifier after its own. *)
Theorem poll_unrecognised_update_skipped :
  forall (Message Query Callback User : Type) (b : Bot User)
         (messages queries callbacks : chan) (timeout latest id : Z)
         (before after : list (Update Message Query Callback))
         (next : fetched Message Query Callback),
    let u : Update Message Query Callback := mkUpdate id None None None in
    range_body messages queries callbacks latest u = ([], id)
    /\ fst (cycle b messages queries callbacks timeout latest
              (Fetch_ok (before ++ u :: after)))
       = fst (cycle b messages queries callbacks timeout latest
                (Fetch_ok (before ++ after)))
    /\ snd (range_updates messages queries callbacks latest (before ++ [u])) = id
    /\ fetch_offsets
         (fst (poll_from b messages queries callbacks timeout latest
                 [Fetch_ok (before ++ [u]); next]))
       = [GoInt.add latest 1; GoInt.add id 1].
Proof.
  intros. subst u.
  assert (Hid : snd (range_updates messages queries callbacks latest
                       (before ++ [mkUpdate id None None None])) = id).
  { rewrite range_updates_app. reflexivity. }
  repeat split.
  - rewrite !cycle_fst, !flat_map_app. reflexivity.
  - exact Hid.
  - change [Fetch_ok (before ++ [mkUpdate id None None None]); next]
      with ([Fetch_ok (before ++ [mkUpdate id None None None])] ++ [next]).
    rewrite fetch_offsets_snoc, poll_from_cons; cbn [poll_from fst snd].
    rewrite app_nil_r, fetch_offsets_cycle, cycle_snd, Hid. reflexivity.
Qed.

(** C3, as stated, fails: an update with both its message and its query
    slot populated is not skipped; its message is sent. *)
Lemma route_two_slots_sends_message :
  let u : Update string string string :=
    mkUpdate 7 (Some "m"%string) (Some "q"%string) None in
  (populated u > 1)%nat
  /\ fst (route made_chan made_chan made_chan u) = [Ev_messages "m"%string]
  /\ fst (route made_chan made_chan made_chan u) <> [].
Proof.
  cbn. repeat split; [lia | discriminate].
Qed.

(** C3, amended: an update with no populated slot sends nothing; an update
    with several populated slots is handled as the update that has only the
    first of them, in the order Message, Query, Callback. *)
Theorem route_first_populated_slot :
  forall (Message Query Callback : Type) (messages queries callbacks : chan)
         (latest : Z),
    (forall id : Z,
        range_body messages queries callbacks latest
          (mkUpdate id None None None : Update Message Query Callback)
        = ([], id))
    /\ (forall u : Update Message Query Callback,
           range_body messages queries callbacks latest u
           = range_body messages queries callbacks latest (first_populated u)
           /\ (populated (first_populated u) <= 1)%nat
           /\ Update_ID (first_populated u) = Update_ID u
           /\ category_of (first_populated u) = category_of u).
Proof.
  intros. split; [reflexivity|].
  intros [id [m|] [q|] [c|]]; cbn; repeat split; lia.
Qed.

(** ** Errors of [getUpdates] *)

(** C4: whatever the number of errors in a row, each one is logged and
    followed at once by a call with the same offset, and the loop goes on
    with the next answer from the same cursor.  After two errors and then
    [{1, Message x}], with the message channel set, [x] has been sent, the
    cursor is 1 and the next call asks from offset 2. *)
Theorem poll_retries_after_error :
  forall (Message Query Callback User : Type) (b : Bot User)
         (messages queries callbacks : chan) (timeout : Z),
    (forall (latest : Z) (errs : list error)
            (rest : list (fetched Message Query Callback)),
        poll_from b messages queries callbacks timeout latest
          (map Fetch_err errs ++ rest)
        = (flat_map
             (fun err =>
                [Ev_getUpdates (Token b) (GoInt.add latest 1)
                   (GoInt.seconds timeout);
                 Ev_log err])
             errs
             ++ fst (poll_from b messages queries callbacks timeout latest rest),
           snd (poll_from b messages queries callbacks timeout latest rest)))
    /\ (forall (e1 e2 : error) (x : Message)
               (next : fetched Message Query Callback),
           let script : list (fetched Message Query Callback) :=
             [Fetch_err e1; Fetch_err e2;
              Fetch_ok [mkUpdate 1 (Some x) None None]] in
           poll b made_chan queries callbacks timeout script
           = ([Ev_getUpdates (Token b) 1 (GoInt.seconds timeout); Ev_log e1;
               Ev_getUpdates (Token b) 1 (GoInt.seconds timeout); Ev_log e2;
               Ev_getUpdates (Token b) 1 (GoInt.seconds timeout);
               Ev_messages x],
              1)
           /\ fetch_offsets
                (fst (poll b made_chan queries callbacks timeout
                        (script ++ [next])))
              = [1; 1; 1; 2]).
Proof.
  intros Message Query Callback User b messages queries callbacks timeout.
  split.
  - intros latest errs rest. induction errs as [|err errs IH].
    + simpl. destruct (poll_from _ _ _ _ _ latest rest); reflexivity.
    + change (map Fetch_err (err :: errs) ++ rest)
        with (@Fetch_err Message Query Callback err :: (map Fetch_err errs ++ rest)).
      rewrite poll_from_cons, cycle_fst, cycle_snd, IH. reflexivity.
  - intros e1 e2 x next script. subst script. split; [reflexivity|].
    unfold poll. rewrite fetch_offsets_snoc. reflexivity.
Qed.

(** ** Channel isolation and order *)

(** C8: with [nil] for queries and callbacks, as [Listen] passes them, no
    script makes the loop send a query or a callback: every send of the run
    is a message, and the messages sent are those of the updates that carry
    one, in the order fetched. *)
Theorem poll_nil_queries_callbacks_only_messages :
  forall (Message Query Callback User : Type) (b : Bot User)
         (subscription : chan) (timeout : Z)
         (script : list (fetched Message Query Callback)),
    let evs := fst (Listen b subscription timeout script) in
    Listen b subscription timeout script
    = poll b subscription nil_chan nil_chan timeout script
    /\ sent_queries evs = []
    /\ sent_callbacks evs = []
    /\ sent_messages evs
       = (if is_nil subscription then []
          else message_payloads (seen_updates script))
    /\ filter is_send evs = map Ev_messages (sent_messages evs).
Proof.
  intros Message Query Callback User b subscription timeout script evs.
  subst evs. unfold Listen, poll.
  split; [reflexivity|].
  split; [apply (poll_from_sent_queries b subscription nil_chan nil_chan)|].
  split; [apply (poll_from_sent_callbacks b subscription nil_chan nil_chan)|].
  split; [apply poll_from_sent_messages|].
  rewrite poll_from_sent_messages, poll_from_sends.
  induction (seen_updates script) as [|u us IH]; simpl.
  - destruct (is_nil subscription); reflexivity.
  - rewrite IH. unfold route.
    destruct (Update_Payload u), (Update_Query u), (Update_Callback u),
      subscription; reflexivity.
Qed.

(** *** Lists in non-decreasing order *)

Lemma non_decreasing_cons (x : Z) (l : list Z) :
  non_decreasing (x :: l) = true <->
  Forall (Z.le x) l /\ non_decreasing l = true.
Proof.
  revert x. induction l as [|y l IH]; intros x.
  - simpl. split; [intros _; split; [constructor | reflexivity] | reflexivity].
  - change (non_decreasing (x :: y :: l))
      with ((x <=? y) && non_decreasing (y :: l)).
    rewrite andb_true_iff, Z.leb_le. split.
    + intros [Hxy Hl]. split; [|exact Hl].
      constructor; [exact Hxy|].
      apply IH in Hl as [Hy _].
      eapply Forall_impl; [|exact Hy]. intros z Hz. lia.
    + intros [Hx Hl]. split; [|exact Hl].
      inversion Hx; assumption.
Qed.

Lemma non_decreasing_app_l (l1 l2 : list Z) :
  non_decreasing (l1 ++ l2) = true -> non_decreasing l1 = true.
Proof.
  induction l1 as [|x l1 IH]; [reflexivity|].
  rewrite <- app_comm_cons, !non_decreasing_cons.
  intros [Hx Hl]. split; [|exact (IH Hl)].
  apply Forall_app in Hx. tauto.
Qed.

(** In a non-decreasing list the last element is the largest. *)
Lemma fold_max_le (x y : Z) (l : list Z) :
  x <= y -> Z.max y (fold_right Z.max x l) = fold_right Z.max y l.
Proof.
  intros Hxy. induction l as [|z l IH]; simpl; lia.
Qed.

Lemma last_cons (x y : Z) (l : list Z) : last (y :: l) x = last l y.
Proof.
  revert x y. induction l as [|z l IH]; intros x y; [reflexivity|].
  change (last (y :: z :: l) x) with (last (z :: l) x).
  rewrite (IH x z), (IH y z). reflexivity.
Qed.

Lemma non_decreasing_last_max (x : Z) (l : list Z) :
  non_decreasing (x :: l) = true -> last l x = fold_right Z.max x l.
Proof.
  revert x. induction l as [|y l IH]; intros x H; [reflexivity|].
  apply non_decreasing_cons in H as [Hx Hl].
  inversion Hx as [|? ? Hxy _]; subst.
  simpl fold_right. rewrite (fold_max_le x y l Hxy), <- (IH y Hl).
  apply last_cons.
Qed.

(** A part of a non-decreasing list, taken in order, is non-decreasing. *)
Lemma non_decreasing_flat_map (A : Type) (key : A -> Z) (pick : A -> list Z)
  (l : list A) :
  (forall a, pick a = [] \/ pick a = [key a]) ->
  non_decreasing (map key l) = true ->
  non_decreasing (flat_map pick l) = true
  /\ Forall (fun z => In z (map key l)) (flat_map pick l).
Proof.
  intros Hpick. induction l as [|a l IH]; intros H.
  - split; [reflexivity | constructor].
  - simpl map in H. apply non_decreasing_cons in H as [Ha Hl].
    destruct (IH Hl) as [IH1 IH2].
    assert (Hin : Forall (fun z => In z (map key (a :: l))) (flat_map pick l)).
    { eapply Forall_impl; [|exact IH2]. intros z Hz. right. exact Hz. }
    simpl flat_map. destruct (Hpick a) as [E|E]; rewrite E; simpl app.
    + split; assumption.
    + split.
      * apply non_decreasing_cons. split; [|exact IH1].
        rewrite Forall_forall in *. intros z Hz. apply Ha, IH2, Hz.
      * constructor; [left; reflexivity | exact Hin].
Qed.

Lemma map_flat_map (A B C : Type) (f : B -> C) (g : A -> list B) (l : list A) :
  map f (flat_map g l) = flat_map (fun a => map f (g a)) l.
Proof.
  induction l as [|a l IH]; simpl; [reflexivity|].
  rewrite map_app, IH. reflexivity.
Qed.

(** C9: a batch in non-decreasing identifier order is routed in batch
    order: the sends are those of its updates one after the other, so their
    identifiers are non-decreasing, and each channel that is set receives
    exactly the payloads of its category in batch order (a [nil] channel
    receives nothing). *)
Theorem range_updates_keeps_batch_order :
  forall (Message Query Callback : Type) (messages queries callbacks : chan)
         (latest : Z) (batch : list (Update Message Query Callback)),
    non_decreasing (map Update_ID batch) = true ->
    let evs := fst (range_updates messages queries callbacks latest batch) in
    evs = map snd (deliveries messages queries callbacks batch)
    /\ non_decreasing (map fst (deliveries messages queries callbacks batch))
       = true
    /\ sent_messages evs
       = (if is_nil messages then [] else message_payloads batch)
    /\ sent_queries evs
       = (if is_nil queries then [] else query_payloads batch)
    /\ sent_callbacks evs
       = (if is_nil callbacks then [] else callback_payloads batch).
Proof.
  intros Message Query Callback messages queries callbacks latest batch H evs.
  subst evs. rewrite range_updates_fst. unfold deliveries.
  rewrite !map_flat_map. repeat split.
  - induction batch as [|u us IH]; simpl; [reflexivity|].
    rewrite map_map, map_id. f_equal. apply IH.
    simpl map in H. apply non_decreasing_cons in H. tauto.
  - apply (non_decreasing_flat_map _ Update_ID); [|exact H].
    intros u. unfold route.
    destruct (Update_Payload u), (Update_Query u), (Update_Callback u),
      messages, queries, callbacks; simpl; auto.
  - apply sent_messages_batch.
  - apply sent_queries_batch.
  - apply sent_callbacks_batch.
Qed.

Lemma range_updates_keeps_batch_order_witness :
  let batch : list (Update string string string) :=
    [mkUpdate 5 (Some "hi"%string) None None;
     mkUpdate 6 None (Some "q1"%string) None;
     mkUpdate 6 None None (Some "c"%string);
     mkUpdate 9 (Some "ho"%string) None None] in
  let evs := fst (range_updates made_chan nil_chan made_chan 0 batch) in
  non_decreasing (map Update_ID batch) = true
  /\ evs = map snd (deliveries made_chan nil_chan made_chan batch)
  /\ non_decreasing (map fst (deliveries made_chan nil_chan made_chan batch))
     = true
  /\ sent_messages evs = message_payloads batch
  /\ sent_queries evs = []
  /\ sent_callbacks evs = callback_payloads batch.
Proof.
  split; [reflexivity|].
  apply (range_updates_keeps_batch_order string string string
           made_chan nil_chan made_chan 0).
  reflexivity.
Defined.

(** ** The cursor *)

Section CursorFacts.

Variables Message Query Callback User : Type.
Variable b : Bot User.
Variables messages queries callbacks : chan.
Variable timeout : Z.

Local Abbreviation wanted :=
  (fun u : Update Message Query Callback =>
     negb (unwanted messages queries callbacks u)).

(** The cursor after a run is the last of its successive values. *)
Lemma range_cursors_last (latest : Z)
  (us : list (Update Message Query Callback)) :
  snd (range_updates messages queries callbacks latest us)
  = last (range_cursors messages queries callbacks latest us) latest.
Proof.
  revert latest. induction us as [|u us IH]; intros latest; [reflexivity|].
  rewrite range_updates_cons. cbn [snd range_cursors].
  rewrite last_cons. apply IH.
Qed.

Lemma poll_cursors_last (latest : Z)
  (script : list (fetched Message Query Callback)) :
  snd (poll_from b messages queries callbacks timeout latest script)
  = last (poll_cursors messages queries callbacks latest script) latest.
Proof.
  revert latest. induction script as [|a script IH]; intros latest;
    [reflexivity|].
  rewrite poll_from_cons, cycle_snd. cbn [snd]. destruct a as [us|err].
  - cbn [poll_cursors]. rewrite IH, range_cursors_last.
    generalize (poll_cursors messages queries callbacks
                  (last (range_cursors messages queries callbacks latest us)
                     latest) script) as l2.
    generalize (range_cursors messages queries callbacks latest us) as l1.
    intros l1 l2. revert latest. induction l1 as [|x l1 IHl]; intros latest.
    + reflexivity.
    + rewrite <- app_comm_cons, !last_cons. apply IHl.
  - apply IH.
Qed.

(** When no update is dropped for a [nil] channel, the cursor takes the
    identifier of every update in turn. *)
Lemma range_cursors_wanted (latest : Z)
  (us : list (Update Message Query Callback)) :
  forallb wanted us = true ->
  range_cursors messages queries callbacks latest us = map Update_ID us.
Proof.
  revert latest. induction us as [|u us IH]; intros latest H; [reflexivity|].
  simpl in H. apply andb_true_iff in H as [Hu Hus].
  cbn [range_cursors map]. rewrite range_body_snd.
  apply negb_true_iff in Hu. rewrite Hu. f_equal. apply IH, Hus.
Qed.

Lemma poll_cursors_wanted (latest : Z)
  (script : list (fetched Message Query Callback)) :
  forallb wanted (seen_updates script) = true ->
  poll_cursors messages queries callbacks latest script = seen_ids script.
Proof.
  unfold seen_ids.
  revert latest. induction script as [|a script IH]; intros latest H;
    [reflexivity|].
  destruct a as [us|err]; cbn [poll_cursors seen_updates flat_map] in *.
  - rewrite forallb_app in H. apply andb_true_iff in H as [Hus Hs].
    rewrite map_app, (range_cursors_wanted latest us Hus). f_equal.
    apply IH, Hs.
  - apply IH, H.
Qed.

End CursorFacts.

Arguments range_cursors_last {Message Query Callback}.
Arguments poll_cursors_last {Message Query Callback User}.
Arguments range_cursors_wanted {Message Query Callback}.
Arguments poll_cursors_wanted {Message Query Callback}.

Lemma seen_ids_app (Message Query Callback : Type)
  (s1 s2 : list (fetched Message Query Callback)) :
  seen_ids (s1 ++ s2) = seen_ids s1 ++ seen_ids s2.
Proof.
  unfold seen_ids, seen_updates. rewrite flat_map_app, map_app. reflexivity.
Qed.

(** C2, what the code does: the run [{5, Message hi}; {6, Query q1}] has
    its identifiers in order, yet in a loop started by [Listen] the cursor
    does not end at the largest identifier seen.  Update 6 is dropped for
    the [nil] query channel and [continue] skips [latestUpdate = update.ID]:
    the cursor stays at 5 while the largest identifier seen is 6.  The
    cursor does not decrease. *)
Theorem poll_cursor_below_max_after_drop :
  forall (Message Query Callback User : Type) (b : Bot User) (timeout : Z)
         (hi : Message) (q1 : Query),
    let script : list (fetched Message Query Callback) :=
      [Fetch_ok [mkUpdate 5 (Some hi) None None;
                 mkUpdate 6 None (Some q1) None]] in
    non_decreasing (0 :: seen_ids script) = true
    /\ max_id (seen_ids script) = 6
    /\ snd (Listen b made_chan timeout script) = 5
    /\ snd (Listen b made_chan timeout script) <> max_id (seen_ids script)
    /\ poll_cursor_trace made_chan nil_chan nil_chan script = [5; 5]
    /\ non_decreasing
         (0 :: poll_cursor_trace made_chan nil_chan nil_chan script)
       = true.
Proof.
  intros. subst script. cbn. repeat split. discriminate.
Qed.

(** X14. For a run whose identifiers, in the order fetched, are
    non-negative and non-decreasing, and in which no update belongs to a
    category whose channel is [nil], the cursor after any part of the run is
    the largest identifier seen so far (0 when none was seen), and the
    successive values of the cursor, starting from 0, are non-decreasing. *)
Theorem poll_cursor_is_max_seen :
  forall (Message Query Callback User : Type) (b : Bot User)
         (messages queries callbacks : chan) (timeout : Z)
         (s1 s2 : list (fetched Message Query Callback)),
    forallb (fun u => negb (unwanted messages queries callbacks u))
      (seen_updates (s1 ++ s2)) = true ->
    non_decreasing (0 :: seen_ids (s1 ++ s2)) = true ->
    snd (poll b messages queries callbacks timeout s1) = max_id (seen_ids s1)
    /\ poll_cursor_trace messages queries callbacks (s1 ++ s2)
       = seen_ids (s1 ++ s2)
    /\ non_decreasing
         (0 :: poll_cursor_trace messages queries callbacks (s1 ++ s2))
       = true.
Proof.
  intros Message Query Callback User b messages queries callbacks timeout
    s1 s2 Hwanted Hsorted.
  assert (Htrace : poll_cursor_trace messages queries callbacks (s1 ++ s2)
                   = seen_ids (s1 ++ s2))
    by (apply poll_cursors_wanted, Hwanted).
  split; [|split; [exact Htrace | rewrite Htrace; exact Hsorted]].
  unfold poll, max_id. rewrite poll_cursors_last, poll_cursors_wanted.
  - apply non_decreasing_last_max.
    rewrite seen_ids_app, app_comm_cons in Hsorted.
    exact (non_decreasing_app_l _ _ Hsorted).
  - unfold seen_updates in *. rewrite flat_map_app, forallb_app in Hwanted.
    apply andb_true_iff in Hwanted. tauto.
Qed.

Lemma poll_cursor_is_max_seen_witness :
  let b : Bot unit := mkBot "token"%string tt made_chan nil_chan made_chan in
  let s1 : list (fetched string string string) :=
    [Fetch_ok [mkUpdate 5 (Some "a"%string) None None;
               mkUpdate 6 None None (Some "c"%string)];
     Fetch_err "timeout"%string] in
  let s2 : list (fetched string string string) :=
    [Fetch_ok [mkUpdate 7 None None None;
               mkUpdate 9 (Some "b"%string) None None]] in
  forallb (fun u => negb (unwanted made_chan nil_chan made_chan u))
    (seen_updates (s1 ++ s2)) = true
  /\ non_decreasing (0 :: seen_ids (s1 ++ s2)) = true
  /\ snd (poll b made_chan nil_chan made_chan 0 s1) = max_id (seen_ids s1)
  /\ poll_cursor_trace made_chan nil_chan made_chan (s1 ++ s2)
     = seen_ids (s1 ++ s2)
  /\ non_decreasing
       (0 :: poll_cursor_trace made_chan nil_chan made_chan (s1 ++ s2))
     = true.
Proof.
  split; [reflexivity|]. split; [reflexivity|].
  apply (poll_cursor_is_max_seen string string string unit); reflexivity.
Defined.

(** ** The offset of each call *)

Lemma GoInt_add_one (c : Z) :
  GoInt.min_int <= c < GoInt.max_int -> GoInt.add c 1 = c + 1.
Proof.
  unfold GoInt.add, GoInt.wrap, GoInt.min_int, GoInt.max_int, GoInt.bits.
  change (2 ^ (64 - 1)) with 9223372036854775808.
  change (2 ^ 64) with 18446744073709551616.
  intros H. rewrite Z.mod_small; lia.
Qed.

(** C5, as stated, fails at the largest [int]: once the cursor is
    [max_int], [latestUpdate+1] wraps around and the next call asks from
    [min_int], which is neither the cursor plus one nor above the cursor. *)
Lemma poll_offset_wraps_at_max_int :
  let b : Bot unit := mkBot "token"%string tt made_chan made_chan made_chan in
  let script : list (fetched string string string) :=
    [Fetch_ok [mkUpdate GoInt.max_int (Some "m"%string) None None]] in
  let cursor := snd (poll b made_chan made_chan made_chan 0 script) in
  cursor = GoInt.max_int
  /\ fetch_offsets
       (fst (poll b made_chan made_chan made_chan 0 (script ++ [Fetch_ok []])))
     = [1; GoInt.min_int]
  /\ GoInt.min_int <> cursor + 1
  /\ ~ cursor < GoInt.min_int.
Proof.
  vm_compute. repeat split; try reflexivity; intros H; discriminate H.
Qed.

(** C5, amended: every call of [getUpdates] asks from [latestUpdate+1] in
    [int] arithmetic; while the cursor is below the largest [int] this is
    the cursor plus one, above the cursor.  The first call of a loop asks
    from offset 1, and after a run that ends with cursor C the next call
    asks from C+1. *)
Theorem poll_offset_is_cursor_plus_one :
  forall (Message Query Callback User : Type) (b : Bot User)
         (messages queries callbacks : chan) (timeout : Z)
         (script : list (fetched Message Query Callback))
         (next : fetched Message Query Callback),
    let cursor := snd (poll b messages queries callbacks timeout script) in
    GoInt.min_int <= cursor < GoInt.max_int ->
    fetch_offsets
      (fst (poll b messages queries callbacks timeout (script ++ [next])))
    = fetch_offsets (fst (poll b messages queries callbacks timeout script))
        ++ [cursor + 1]
    /\ cursor < cursor + 1
    /\ hd_error
         (fetch_offsets
            (fst (poll b messages queries callbacks timeout (next :: script))))
       = Some 1.
Proof.
  intros Message Query Callback User b messages queries callbacks timeout
    script next cursor Hrange.
  subst cursor. unfold poll in *. split; [|split].
  - rewrite fetch_offsets_snoc, (GoInt_add_one _ Hrange). reflexivity.
  - lia.
  - rewrite poll_from_cons, cycle_fst. reflexivity.
Qed.

Lemma poll_offset_is_cursor_plus_one_witness :
  let b : Bot unit := mkBot "token"%string tt made_chan made_chan made_chan in
  let script : list (fetched string string string) :=
    [Fetch_ok [mkUpdate 5 (Some "hi"%string) None None;
               mkUpdate 6 None (Some "q1"%string) None]] in
  let next : fetched string string string := Fetch_err "timeout"%string in
  let cursor := snd (poll b made_chan made_chan made_chan 0 script) in
  GoInt.min_int <= cursor < GoInt.max_int
  /\ fetch_offsets
       (fst (poll b made_chan made_chan made_chan 0 (script ++ [next])))
     = fetch_offsets (fst (poll b made_chan made_chan made_chan 0 script))
         ++ [cursor + 1]
  /\ cursor < cursor + 1
  /\ hd_error
       (fetch_offsets
          (fst (poll b made_chan made_chan made_chan 0 (next :: script))))
     = Some 1.
Proof.
  split; [vm_compute; split; [discriminate | reflexivity]|].
  apply (poll_offset_is_cursor_plus_one string string string unit).
  vm_compute; split; [discriminate | reflexivity].
Defined.

(** ** Answering *)

(** C10: both functions write the identifier into the caller's response
    object first ([QueryID] from the query, [CallbackID] from the callback,
    the other fields untouched), hand that object to [sendCommand], and
    leave it so whatever comes back: an error of the call, an error of the
    decoding, or an answer that is not ok. *)
Theorem answer_sets_id_before_call :
  forall (QueryFields CallbackFields : Type)
         (QueryResponseFields CallbackResponseFields : Type)
         (sendCommand :
            string -> string ->
            params QueryResponseFields CallbackResponseFields ->
            string * option error)
         (json_Unmarshal :
            string -> responseRecieved -> responseRecieved * option error)
         (token : string)
         (query : Query QueryFields) (callback : Callback CallbackFields)
         (qr : QueryResponse QueryResponseFields)
         (cr : CallbackResponse CallbackResponseFields)
         (body description : string) (e : error) (garbage : responseRecieved),
    let qr' := mkQueryResponse (Query_ID query) (QueryResponse_fields qr) in
    let cr' :=
      mkCallbackResponse (Callback_ID callback) (CallbackResponse_fields cr) in
    let failing (_ _ : string)
          (_ : params QueryResponseFields CallbackResponseFields) :=
      (body, Some e) in
    let answering (_ _ : string)
          (_ : params QueryResponseFields CallbackResponseFields) :=
      (body, @None error) in
    let undecodable (_ : string) (_ : responseRecieved) :=
      (garbage, Some e) in
    let not_ok (_ : string) (_ : responseRecieved) :=
      (mkResponseRecieved false description, @None error) in
    (AnswerInlineQuery sendCommand json_Unmarshal token (Some query) (Some qr)
     = Return qr'
         (decode json_Unmarshal
            (sendCommand "answerInlineQuery"%string token
               (Params_QueryResponse qr')))
     /\ AnswerInlineQuery failing json_Unmarshal token (Some query) (Some qr)
        = Return qr' (Some e)
     /\ AnswerInlineQuery answering undecodable token (Some query) (Some qr)
        = Return qr' (Some e)
     /\ AnswerInlineQuery answering not_ok token (Some query) (Some qr)
        = Return qr' (Some (String.append "telebot: " description)))
    /\ (AnswerCallbackQuery sendCommand json_Unmarshal token (Some callback)
          (Some cr)
        = Return cr'
            (decode json_Unmarshal
               (sendCommand "answerCallbackQuery"%string token
                  (Params_CallbackResponse cr')))
        /\ AnswerCallbackQuery failing json_Unmarshal token (Some callback)
             (Some cr)
           = Return cr' (Some e)
        /\ AnswerCallbackQuery answering undecodable token (Some callback)
             (Some cr)
           = Return cr' (Some e)
        /\ AnswerCallbackQuery answering not_ok token (Some callback) (Some cr)
           = Return cr' (Some (String.append "telebot: " description))).
Proof.
  intros. repeat split.
Qed.

(** * Further properties of the loop *)

Lemma last_app_from (l1 l2 : list Z) (d : Z) :
  last (l1 ++ l2) d = last l2 (last l1 d).
Proof.
  revert d. induction l1 as [|x l1 IH]; intros d; [reflexivity|].
  rewrite <- app_comm_cons, !last_cons. apply IH.
Qed.

Section MoreFacts.

Variables Message Query Callback User : Type.
Variable b : Bot User.
Variables messages queries callbacks : chan.
Variable timeout : Z.

Local Abbreviation events := (list (event Message Query Callback)).

Lemma range_updates_last_kept (latest : Z)
  (us : list (Update Message Query Callback)) :
  snd (range_updates messages queries callbacks latest us)
  = last (map Update_ID (kept messages queries callbacks us)) latest.
Proof.
  revert latest. induction us as [|u us IH]; intros latest; [reflexivity|].
  rewrite range_updates_cons, range_body_snd. cbn [snd kept filter].
  fold (kept messages queries callbacks us).
  destruct (unwanted messages queries callbacks u); cbn [negb].
  - apply IH.
  - cbn [map]. rewrite last_cons. apply IH.
Qed.

Lemma poll_from_last_kept (latest : Z)
  (script : list (fetched Message Query Callback)) :
  snd (poll_from b messages queries callbacks timeout latest script)
  = last (map Update_ID
            (kept messages queries callbacks (seen_updates script)))
      latest.
Proof.
  revert latest. induction script as [|a script IH]; intros latest;
    [reflexivity|].
  rewrite poll_from_cons, cycle_snd. cbn [snd seen_updates flat_map].
  fold (seen_updates script). unfold kept. rewrite filter_app, map_app.
  rewrite last_app_from. fold (kept messages queries callbacks (seen_updates script)).
  rewrite IH. destruct a as [us|err].
  - rewrite range_updates_last_kept. reflexivity.
  - reflexivity.
Qed.

Lemma fetch_calls_sends (evs : events) :
  forallb is_send evs = true -> fetch_calls evs = [] /\ logged evs = [].
Proof.
  induction evs as [|e evs IH]; simpl; [split; reflexivity|].
  intros H. apply andb_true_iff in H as [He Hevs].
  destruct (IH Hevs) as [IH1 IH2]. rewrite IH1, IH2.
  destruct e; simpl in *; try discriminate; split; reflexivity.
Qed.

Lemma poll_from_skeleton (latest : Z)
  (script : list (fetched Message Query Callback)) :
  let evs := fst (poll_from b messages queries callbacks timeout latest script) in
  fetch_calls evs
  = map (fun offset => (Token b, offset, GoInt.seconds timeout))
      (fetch_offsets evs)
  /\ List.length (fetch_calls evs) = List.length script
  /\ logged evs = fetch_errors script.
Proof.
  revert latest. induction script as [|a script IH]; intros latest.
  - repeat split.
  - cbn zeta in *. rewrite poll_from_cons, cycle_fst. cbn [fst].
    destruct (IH (snd (cycle b messages queries callbacks timeout latest a)))
      as (IH1 & IH2 & IH3).
    set (rest := fst (poll_from b messages queries callbacks timeout
                        (snd (cycle b messages queries callbacks timeout latest a))
                        script)) in *.
    assert (Hbody :
      let body := match a with
                  | Fetch_ok us =>
                      flat_map (fun u => fst (route messages queries callbacks u)) us
                  | Fetch_err err => [Ev_log err]
                  end in
      fetch_calls body = [] /\ fetch_offsets body = []
      /\ logged body = match a with Fetch_ok _ => [] | Fetch_err err => [err] end).
    { destruct a as [us|err]; cbn zeta.
      - pose proof (batch_is_send _ _ _ messages queries callbacks us) as Hs.
        destruct (fetch_calls_sends _ Hs) as [H1 H2].
        rewrite H1, H2, (fetch_offsets_sends _ _ _ _ Hs). repeat split.
      - repeat split. }
    cbn zeta in Hbody. destruct Hbody as (Hb1 & Hb2 & Hb3).
    unfold fetch_calls, fetch_offsets, logged in *.
    cbn [flat_map app]. rewrite !flat_map_app, Hb1, Hb2, Hb3.
    cbn [app map List.length]. rewrite IH2, IH1, IH3.
    destruct a; repeat split.
Qed.

End MoreFacts.

Arguments range_updates_last_kept {Message Query Callback}.
Arguments poll_from_last_kept {Message Query Callback User}.
Arguments poll_from_skeleton {Message Query Callback User}.

(** X1. The cursor of a run: errors and updates dropped for a [nil] channel
    leave it where it is, every other update sets it.  So after any run it
    is the identifier of the last fetched update that was not dropped, or 0
    when there was none. *)
Theorem poll_cursor_is_last_kept_update :
  forall (Message Query Callback User : Type) (b : Bot User)
         (messages queries callbacks : chan) (timeout : Z)
         (script : list (fetched Message Query Callback)),
    snd (poll b messages queries callbacks timeout script)
    = last (map Update_ID
              (kept messages queries callbacks (seen_updates script)))
        0.
Proof.
  intros. apply poll_from_last_kept.
Qed.

(** X4. Each cycle calls [getUpdates] exactly once, always with the bot's token
    and the timeout in whole seconds, and the lines logged are exactly the
    errors [getUpdates] answered with, in order. *)
Theorem poll_one_call_per_cycle :
  forall (Message Query Callback User : Type) (b : Bot User)
         (messages queries callbacks : chan) (timeout : Z)
         (script : list (fetched Message Query Callback)),
    let evs := fst (poll b messages queries callbacks timeout script) in
    fetch_calls evs
    = map (fun offset => (Token b, offset, GoInt.seconds timeout))
        (fetch_offsets evs)
    /\ List.length (fetch_calls evs) = List.length script
    /\ logged evs = fetch_errors script.
Proof.
  intros. apply poll_from_skeleton.
Qed.

(** X5. A run sends exactly once for every fetched update that has a payload
    and is not dropped, and never otherwise: the sends are at most as many
    as the updates fetched. *)
Theorem poll_one_send_per_kept_update :
  forall (Message Query Callback User : Type) (b : Bot User)
         (messages queries callbacks : chan) (timeout : Z)
         (script : list (fetched Message Query Callback)),
    let evs := fst (poll b messages queries callbacks timeout script) in
    List.length (filter is_send evs)
    = List.length
        (filter
           (fun u => match category_of u with Some _ => true | None => false end)
           (kept messages queries callbacks (seen_updates script)))
    /\ (List.length (filter is_send evs)
        <= List.length (seen_updates script))%nat.
Proof.
  intros Message Query Callback User b messages queries callbacks timeout
    script evs.
  subst evs. unfold poll. rewrite poll_from_sends.
  induction (seen_updates script) as [|u us [IH1 IH2]]; [split; reflexivity|].
  cbn [flat_map kept filter]. fold (kept messages queries callbacks us).
  rewrite length_app, IH1. split.
  - destruct u as [id [m|] [q|] [c|]], messages, queries, callbacks;
      reflexivity.
  - rewrite <- IH1. cbn [List.length].
    assert (List.length (fst (route messages queries callbacks u)) <= 1)%nat.
    { unfold route.
      destruct (Update_Payload u), (Update_Query u), (Update_Callback u),
        messages, queries, callbacks; cbn; lia. }
    lia.
Qed.

(** *** The cursor when identifiers arrive in order *)

Lemma non_decreasing_drop_second (x y : Z) (l : list Z) :
  non_decreasing (x :: y :: l) = true -> non_decreasing (x :: l) = true.
Proof.
  intros H. apply non_decreasing_cons in H as [Hx Hl].
  apply non_decreasing_cons in Hl as [_ Hl].
  apply non_decreasing_cons. split; [|exact Hl].
  inversion Hx; assumption.
Qed.

Lemma non_decreasing_app_last (x : Z) (l1 l2 : list Z) :
  non_decreasing (x :: l1) = true ->
  non_decreasing (last l1 x :: l2) = true ->
  non_decreasing (x :: l1 ++ l2) = true.
Proof.
  revert x. induction l1 as [|y l1 IH]; intros x H1 H2; [exact H2|].
  rewrite last_cons in H2.
  change (non_decreasing (x :: y :: l1)) with
    ((x <=? y) && non_decreasing (y :: l1)) in H1.
  apply andb_true_iff in H1 as [Hxy H1].
  change (non_decreasing (x :: (y :: l1) ++ l2)) with
    ((x <=? y) && non_decreasing (y :: l1 ++ l2)).
  rewrite Hxy. exact (IH y H1 H2).
Qed.

Lemma non_decreasing_head_le_last (x : Z) (l : list Z) :
  non_decreasing (x :: l) = true -> x <= last l x.
Proof.
  revert x. induction l as [|y l IH]; intros x H; [simpl; lia|].
  rewrite last_cons.
  apply non_decreasing_cons in H as [Hx Hl].
  inversion Hx; subst. specialize (IH y Hl). lia.
Qed.

Lemma max_id_upper (x : Z) (l : list Z) : In x l -> x <= max_id l.
Proof.
  unfold max_id. induction l as [|y l IH]; simpl; [tauto|].
  intros [->|H]; [lia | specialize (IH H); lia].
Qed.

Lemma max_id_nonneg (l : list Z) : 0 <= max_id l.
Proof.
  unfold max_id. induction l as [|y l IH]; simpl; lia.
Qed.

Lemma last_in_or_default (l : list Z) (d : Z) : last l d = d \/ In (last l d) l.
Proof.
  revert d. induction l as [|x l IH]; intros d; [left; reflexivity|].
  rewrite last_cons. right. destruct (IH x) as [E|H]; [left | right]; auto.
Qed.

Section SortedFacts.

Variables Message Query Callback : Type.
Variables messages queries callbacks : chan.

Lemma range_cursors_sorted (us : list (Update Message Query Callback)) :
  forall (latest : Z) (tail : list Z),
    non_decreasing (latest :: map Update_ID us ++ tail) = true ->
    non_decreasing
      (latest :: range_cursors messages queries callbacks latest us) = true
    /\ non_decreasing
         (snd (range_updates messages queries callbacks latest us) :: tail)
       = true.
Proof.
  induction us as [|u us IH]; intros latest tail H.
  - split; [reflexivity | exact H].
  - cbn [map app] in H. rewrite range_updates_cons. cbn [range_cursors snd].
    rewrite range_body_snd.
    destruct (unwanted messages queries callbacks u).
    + destruct (IH latest tail (non_decreasing_drop_second _ _ _ H))
        as [IH1 IH2].
      split; [|exact IH2].
      change (non_decreasing (latest :: latest :: ?l)) with
        ((latest <=? latest) && non_decreasing (latest :: l)).
      rewrite Z.leb_refl. exact IH1.
    + change (non_decreasing (latest :: Update_ID u :: ?l)) with
        ((latest <=? Update_ID u) && non_decreasing (Update_ID u :: l)) in H.
      apply andb_true_iff in H as [Hle H].
      destruct (IH (Update_ID u) tail H) as [IH1 IH2].
      split; [|exact IH2].
      change (non_decreasing (latest :: Update_ID u :: ?l)) with
        ((latest <=? Update_ID u) && non_decreasing (Update_ID u :: l)).
      rewrite Hle. exact IH1.
Qed.

Lemma poll_cursors_sorted (script : list (fetched Message Query Callback)) :
  forall latest : Z,
    non_decreasing (latest :: seen_ids script) = true ->
    non_decreasing
      (latest :: poll_cursors messages queries callbacks latest script) = true.
Proof.
  induction script as [|a script IH]; intros latest H; [reflexivity|].
  destruct a as [us|err]; cbn [poll_cursors].
  - change (seen_ids (Fetch_ok us :: script))
      with (map Update_ID (us ++ seen_updates script)) in H.
    rewrite map_app in H. fold (seen_ids script) in H.
    destruct (range_cursors_sorted us latest (seen_ids script) H) as [H1 H2].
    apply non_decreasing_app_last; [exact H1|].
    rewrite <- range_cursors_last. apply IH, H2.
  - apply IH, H.
Qed.

End SortedFacts.

Arguments poll_cursors_sorted {Message Query Callback}.

(** X3. Whatever channels are set, if the identifiers arrive non-negative and
    in non-decreasing order then the cursor never decreases, and after the
    run it lies between 0 and the largest identifier seen. *)
Theorem poll_cursor_monotone_when_sorted :
  forall (Message Query Callback User : Type) (b : Bot User)
         (messages queries callbacks : chan) (timeout : Z)
         (script : list (fetched Message Query Callback)),
    non_decreasing (0 :: seen_ids script) = true ->
    non_decreasing (0 :: poll_cursor_trace messages queries callbacks script)
    = true
    /\ 0 <= snd (poll b messages queries callbacks timeout script)
       <= max_id (seen_ids script).
Proof.
  intros Message Query Callback User b messages queries callbacks timeout
    script H.
  pose proof (poll_cursors_sorted messages queries callbacks script 0 H) as Hs.
  split; [exact Hs|]. split.
  - unfold poll. rewrite poll_cursors_last.
    apply non_decreasing_head_le_last, Hs.
  - unfold poll. rewrite poll_from_last_kept.
    destruct (last_in_or_default
                (map Update_ID
                   (kept messages queries callbacks (seen_updates script))) 0)
      as [E|Hin].
    + rewrite E. apply max_id_nonneg.
    + apply max_id_upper. unfold seen_ids.
      apply in_map_iff in Hin as (u & Hu & Hin). rewrite <- Hu.
      apply in_map. unfold kept in Hin. apply filter_In in Hin. tauto.
Qed.

Lemma poll_cursor_monotone_when_sorted_witness :
  let b : Bot unit := mkBot "token"%string tt made_chan nil_chan nil_chan in
  let script : list (fetched string string string) :=
    [Fetch_ok [mkUpdate 5 (Some "a"%string) None None;
               mkUpdate 6 None (Some "q"%string) None];
     Fetch_err "timeout"%string;
     Fetch_ok [mkUpdate 6 None (Some "q"%string) None;
               mkUpdate 8 None None None]] in
  non_decreasing (0 :: seen_ids script) = true
  /\ non_decreasing (0 :: poll_cursor_trace made_chan nil_chan nil_chan script)
     = true
  /\ 0 <= snd (poll b made_chan nil_chan nil_chan 0 script)
     <= max_id (seen_ids script).
Proof.
  split; [reflexivity|].
  apply (poll_cursor_monotone_when_sorted string string string unit).
  reflexivity.
Defined.

(** *** A bot as [NewBot] returns it *)

(** X8. [NewBot] fails with the error of [getMe] and no bot, or returns a bot
    with the given token, the identity [getMe] answered and no channel.
    [Start] on such a bot, before any channel is assigned, sends nothing
    whatever is fetched, and only updates without payload move its cursor. *)
Theorem Start_on_new_bot_sends_nothing :
  forall (User : Type) (getMe : string -> User * option error) (token : string),
    match snd (getMe token) with
    | Some e => NewBot getMe token = (None, Some e)
    | None =>
        exists b : Bot User,
          NewBot getMe token = (Some b, None)
          /\ Token b = token
          /\ Identity b = fst (getMe token)
          /\ forall (Message Query Callback : Type) (timeout : Z)
                    (script : list (fetched Message Query Callback)),
               filter is_send (fst (Start b timeout script)) = []
               /\ snd (Start b timeout script)
                  = last
                      (map Update_ID
                         (filter
                            (fun u =>
                               match category_of u with
                               | Some _ => false
                               | None => true
                               end)
                            (seen_updates script)))
                      0
    end.
Proof.
  intros User getMe token. unfold NewBot.
  destruct (getMe token) as [user [e|]]; cbn [snd fst]; [reflexivity|].
  exists (mkBot token user nil_chan nil_chan nil_chan).
  repeat split.
  - unfold Start, poll. cbn [Messages Queries Callbacks].
    rewrite poll_from_sends.
    induction (seen_updates script) as [|u us IH]; [reflexivity|].
    cbn [flat_map]. rewrite IH.
    destruct u as [id [m|] [q|] [c|]]; reflexivity.
  - unfold Start, poll. cbn [Messages Queries Callbacks].
    rewrite poll_from_last_kept. do 2 f_equal. unfold kept.
    apply filter_ext. intros [id [m|] [q|] [c|]]; reflexivity.
Qed.

(** *** The timeout *)

Lemma GoInt_seconds_spec (timeout : Z) :
  GoInt.min_int <= timeout <= GoInt.max_int ->
  GoInt.seconds timeout = Z.quot timeout GoInt.Second
  /\ Z.abs (GoInt.seconds timeout * GoInt.Second) <= Z.abs timeout
     < Z.abs (GoInt.seconds timeout * GoInt.Second) + GoInt.Second
  /\ 0 <= GoInt.seconds timeout * timeout.
Proof.
  unfold GoInt.seconds, GoInt.wrap, GoInt.min_int, GoInt.max_int, GoInt.bits,
    GoInt.Second.
  change (2 ^ (64 - 1)) with 9223372036854775808.
  change (2 ^ 64) with 18446744073709551616.
  intros H.
  pose proof (Z.quot_rem' timeout 1000000000) as Hqr.
  pose proof (Z.rem_bound_abs timeout 1000000000 ltac:(lia)) as Hr.
  pose proof (Z.rem_sign_mul timeout 1000000000 ltac:(lia)) as Hs.
  set (q := Z.quot timeout 1000000000) in *.
  set (r := Z.rem timeout 1000000000) in *.
  assert (Hq : Z.abs q <= Z.abs timeout) by nia.
  assert (Hsign : 0 <= q * timeout) by nia.
  rewrite Z.mod_small by lia.
  replace (q + 9223372036854775808 - 9223372036854775808) with q by lia.
  split; [reflexivity|]. split; [nia | exact Hsign].
Qed.

(** X7. Every call passes the timeout divided by a second, rounded toward
    zero: the whole seconds of the timeout, with its sign.  It is 0 exactly
    for timeouts shorter than a second, which therefore poll without
    waiting. *)
Theorem poll_timeout_in_whole_seconds :
  forall (Message Query Callback User : Type) (b : Bot User)
         (messages queries callbacks : chan) (timeout : Z)
         (script : list (fetched Message Query Callback)),
    GoInt.min_int <= timeout <= GoInt.max_int ->
    let s := GoInt.seconds timeout in
    Forall (fun call : string * Z * Z => snd call = s)
      (fetch_calls (fst (poll b messages queries callbacks timeout script)))
    /\ Z.abs (s * GoInt.Second) <= Z.abs timeout
       < Z.abs (s * GoInt.Second) + GoInt.Second
    /\ 0 <= s * timeout
    /\ (s = 0 <-> - GoInt.Second < timeout < GoInt.Second).
Proof.
  intros Message Query Callback User b messages queries callbacks timeout
    script Hrange s.
  destruct (GoInt_seconds_spec timeout Hrange) as (_ & Hnear & Hsign).
  fold s in Hnear, Hsign.
  split; [|split; [exact Hnear | split; [exact Hsign|]]].
  - destruct (poll_from_skeleton b messages queries callbacks timeout 0 script)
      as (E & _ & _).
    unfold poll. rewrite E. apply Forall_forall.
    intros call Hin. apply in_map_iff in Hin as (offset & <- & _). reflexivity.
  - unfold GoInt.Second in *. split; intros H; nia.
Qed.

Lemma poll_timeout_in_whole_seconds_witness :
  let b : Bot unit := mkBot "token"%string tt made_chan nil_chan nil_chan in
  let script : list (fetched string string string) :=
    [Fetch_err "timeout"%string; Fetch_ok []] in
  let timeout := 2500000000 in
  let s := GoInt.seconds timeout in
  GoInt.min_int <= timeout <= GoInt.max_int
  /\ Forall (fun call : string * Z * Z => snd call = s)
       (fetch_calls (fst (poll b made_chan nil_chan nil_chan timeout script)))
  /\ Z.abs (s * GoInt.Second) <= Z.abs timeout
     < Z.abs (s * GoInt.Second) + GoInt.Second
  /\ 0 <= s * timeout
  /\ (s = 0 <-> - GoInt.Second < timeout < GoInt.Second).
Proof.
  split; [vm_compute; split; discriminate|].
  apply (poll_timeout_in_whole_seconds string string string unit).
  vm_compute; split; discriminate.
Defined.

(** *** Cycles that keep nothing *)

(** X2. A cycle that keeps no update, because [getUpdates] failed, answered an
    empty batch or answered only updates that are dropped for a [nil]
    channel, leaves the cursor where it was: the next call asks from the
    same offset again. *)
Theorem poll_repeats_offset_when_nothing_kept :
  forall (Message Query Callback User : Type) (b : Bot User)
         (messages queries callbacks : chan) (timeout : Z)
         (script : list (fetched Message Query Callback))
         (answer next : fetched Message Query Callback),
    kept messages queries callbacks (seen_updates [answer]) = [] ->
    let offset :=
      GoInt.add (snd (poll b messages queries callbacks timeout script)) 1 in
    snd (poll b messages queries callbacks timeout (script ++ [answer]))
    = snd (poll b messages queries callbacks timeout script)
    /\ fetch_offsets
         (fst (poll b messages queries callbacks timeout
                 (script ++ [answer; next])))
       = fetch_offsets (fst (poll b messages queries callbacks timeout script))
           ++ [offset; offset].
Proof.
  intros Message Query Callback User b messages queries callbacks timeout
    script answer next Hkept offset.
  assert (Hsame :
    snd (poll b messages queries callbacks timeout (script ++ [answer]))
    = snd (poll b messages queries callbacks timeout script)).
  { unfold poll. rewrite poll_from_app. cbn [snd].
    rewrite poll_from_last_kept, Hkept. reflexivity. }
  split; [exact Hsame|].
  change (script ++ [answer; next]) with (script ++ [answer] ++ [next]).
  rewrite app_assoc. unfold poll in *.
  rewrite fetch_offsets_snoc, fetch_offsets_snoc, Hsame, <- app_assoc.
  reflexivity.
Qed.

Lemma poll_repeats_offset_when_nothing_kept_witness :
  let b : Bot unit := mkBot "token"%string tt made_chan nil_chan nil_chan in
  let script : list (fetched string string string) :=
    [Fetch_ok [mkUpdate 5 (Some "hi"%string) None None]] in
  let answer : fetched string string string :=
    Fetch_ok [mkUpdate 6 None (Some "q1"%string) None;
              mkUpdate 7 None None (Some "c1"%string)] in
  let next : fetched string string string := Fetch_err "timeout"%string in
  kept made_chan nil_chan nil_chan (seen_updates [answer]) = []
  /\ snd (poll b made_chan nil_chan nil_chan 0 (script ++ [answer]))
     = snd (poll b made_chan nil_chan nil_chan 0 script)
  /\ fetch_offsets
       (fst (poll b made_chan nil_chan nil_chan 0 (script ++ [answer; next])))
     = fetch_offsets (fst (poll b made_chan nil_chan nil_chan 0 script))
         ++ [6; 6].
Proof.
  split; [reflexivity|].
  apply (poll_repeats_offset_when_nothing_kept string string string unit).
  reflexivity.
Defined.

(** * Properties of the sending functions *)

Lemma Params_get_set (key value : string) (m : Params) :
  Params_get key (Params_set key value m) = Some value.
Proof.
  unfold Params_set. cbn [Params_get]. rewrite String.eqb_refl. reflexivity.
Qed.

Section SendFacts.

Variables FileFields PhotoFields ThumbnailFields F : Type.
Variables Message SendOptions Result : Type.
Variable Exists : File FileFields -> bool.
Variable zero_Message : Message.
Variable Message_Photo : Message -> list (Thumbnail FileFields ThumbnailFields).
Variable Message_field : Message -> Media FileFields F.
Variable embedSendOptions : Params -> SendOptions -> Params.
Variable json_Marshal : list Result -> string * option error.
Variable json_Unmarshal_received :
  string -> messageResponseReceived Message ->
  messageResponseReceived Message * option error.
Variable json_Unmarshal :
  string -> responseRecieved -> responseRecieved * option error.
Variable remote : call -> string * option error.
Variable token : string.
Context {R : Type} {Recipient_R : Recipient R}.
Variables method name : string.

Local Abbreviation send :=
  (send_media Exists zero_Message embedSendOptions json_Unmarshal_received
     remote token method name Message_field).

Local Abbreviation photo :=
  (SendPhoto Exists zero_Message Message_Photo embedSendOptions
     json_Unmarshal_received remote token).

Local Abbreviation receive' :=
  (receive zero_Message json_Unmarshal_received).

(** X9. [SendAudio], [SendDocument], [SendSticker], [SendVideo]: whenever
    the call returns, it has made exactly one remote call and the local
    filename of the object is as before.  On each of the three error paths
    the object is left as it was; on success it becomes the server's copy:
    the identifier and the other fields are those of the answer. *)
Theorem send_media_object (recipient : R) (o o' : Media FileFields F)
  (options : option SendOptions) (calls : list call) (result : Message)
  (err : option error) :
  send recipient (Some o) options = Send_return calls o' result err ->
  List.length calls = 1%nat
  /\ File_filename (Media_File o') = File_filename (Media_File o)
  /\ match err with
     | Some _ => o' = o
     | None =>
         File_FileID (Media_File o')
         = File_FileID (Media_File (Message_field result))
         /\ File_fields (Media_File o')
            = File_fields (Media_File (Message_field result))
         /\ Media_fields o' = Media_fields (Message_field result)
     end.
Proof.
  unfold send_media.
  set (c := if Exists (Media_File o) then _ else _).
  destruct (receive' (remote c)) as [result1 [e|]]; intros H.
  - injection H as <- <- _ <-. repeat split.
  - injection H as <- <- <- <-. repeat split.
Qed.

(** X10. Sending the same object again after a success issues no new upload,
    provided the server's copy exists: the second call is a plain command
    that carries the identifier the first answer gave, whatever the send
    options try to put under that key. *)
Theorem send_media_again_does_not_upload
  (recipient recipient' : R) (o o' : Media FileFields F)
  (options options' : option SendOptions) (calls : list call)
  (result : Message) :
  send recipient (Some o) options = Send_return calls o' result None ->
  Exists (Media_File o') = true ->
  exists params : Params,
    calls_of (send recipient' (Some o') options')
    = [Call_sendCommand method token params]
    /\ Params_get name params
       = Some (File_FileID (Media_File (Message_field result))).
Proof.
  intros Hfirst Hexists.
  assert (Hid : File_FileID (Media_File o')
                = File_FileID (Media_File (Message_field result))).
  { unfold send_media in Hfirst.
    destruct (receive' (remote _)) as [result1 [e|]] in Hfirst;
      [discriminate|].
    injection Hfirst as _ <- <-. reflexivity. }
  unfold send_media. rewrite Hexists.
  match goal with
  | |- context [receive' (remote ?c2)] =>
      destruct (receive' (remote c2)) as [result2 [e|]]
  end;
    eexists; (split; [reflexivity|]); rewrite Params_get_set, Hid; reflexivity.
Qed.

(** X11. An ok answer without any photo size makes [SendPhoto] panic, after the
    photo has been sent: the index [len - 1] is out of range. *)
Theorem SendPhoto_panics_without_thumbnails
  (recipient : R) (p : Photo FileFields PhotoFields)
  (options : option SendOptions) (body : string)
  (received : messageResponseReceived Message) :
  (forall c : call, remote c = (body, None)) ->
  json_Unmarshal_received body
    (mkMessageResponseReceived false zero_Message EmptyString)
  = (received, None) ->
  Received_Ok received = true ->
  Message_Photo (Received_Result received) = [] ->
  exists c : call, photo recipient (Some p) options = Send_panic [c].
Proof.
  intros Hremote Hdecode Hok Hempty. unfold SendPhoto.
  set (c := if Exists (Photo_File p) then _ else _).
  exists c. unfold receive. rewrite Hremote, Hdecode, Hok. cbn [negb].
  rewrite Hempty. reflexivity.
Qed.

Lemma last_thumbnail_some
  (ts : list (Thumbnail FileFields ThumbnailFields))
  (t : Thumbnail FileFields ThumbnailFields) :
  last_thumbnail ts = Some t -> exists front, ts = front ++ [t].
Proof.
  unfold last_thumbnail. intros H.
  destruct (rev ts) as [|t' front] eqn:E; [discriminate|].
  injection H as ->. exists (rev front).
  rewrite <- (rev_involutive ts), E. reflexivity.
Qed.

(** X12. When [SendPhoto] returns, the caption, the other fields and the local
    filename of the photo are as before.  On an error the whole photo is
    untouched; on success its file is the file of the last photo size of the
    answer. *)
Theorem SendPhoto_object
  (recipient : R) (p p' : Photo FileFields PhotoFields)
  (options : option SendOptions) (calls : list call) (result : Message)
  (err : option error) :
  photo recipient (Some p) options = Send_return calls p' result err ->
  Photo_Caption p' = Photo_Caption p
  /\ Photo_fields p' = Photo_fields p
  /\ File_filename (Photo_File p') = File_filename (Photo_File p)
  /\ match err with
     | Some _ => p' = p
     | None =>
         exists front t,
           Message_Photo result = front ++ [t]
           /\ File_FileID (Photo_File p') = File_FileID (Thumbnail_File t)
           /\ File_fields (Photo_File p') = File_fields (Thumbnail_File t)
     end.
Proof.
  unfold SendPhoto.
  set (c := if Exists (Photo_File p) then _ else _).
  destruct (receive' (remote c)) as [result1 [e|]].
  - intros H. injection H as _ <- _ <-. repeat split.
  - destruct (last_thumbnail (Message_Photo result1)) as [t|] eqn:E;
      [|discriminate].
    intros H. injection H as _ <- <- <-. repeat split.
    destruct (last_thumbnail_some _ _ E) as [front Hfront].
    exists front, t. repeat split. exact Hfront.
Qed.

(** X13. [Respond] makes no remote call when the results cannot be marshalled and
    returns that error.  Otherwise it makes exactly one call,
    [answerInlineQuery], that carries the identifier of the query and the
    marshalled results, and judges the answer as [AnswerInlineQuery] does. *)
Theorem Respond_marshals_first (QueryFields : Type)
  (query : Query QueryFields) (results : list Result) :
  match json_Marshal results with
  | (_, Some e) =>
      Respond json_Marshal json_Unmarshal remote token query results
      = ([], Some e)
  | (res, None) =>
      exists params : Params,
        Respond json_Marshal json_Unmarshal remote token query results
        = ([Call_sendCommand "answerInlineQuery" token params],
           decode json_Unmarshal
             (remote (Call_sendCommand "answerInlineQuery" token params)))
        /\ Params_get "inline_query_id" params = Some (Query_ID query)
        /\ Params_get "results" params = Some res
        /\ List.length params = 2%nat
  end.
Proof.
  unfold Respond. destruct (json_Marshal results) as [res [e|]];
    [reflexivity|].
  eexists. repeat split.
Qed.

End SendFacts.

Lemma send_media_again_does_not_upload_witness :
  let audio : Media unit unit := mkMedia (mkFile "" "/tmp/a.mp3" tt) tt in
  let audio' : Media unit unit :=
    mkMedia (mkFile "on the server" "/tmp/a.mp3" tt) tt in
  let result : World.Message :=
    ([mkThumbnail (mkFile "small" "" tt) tt;
      mkThumbnail (mkFile "large" "" tt) tt],
     mkMedia (mkFile "on the server" "" tt) tt) in
  let SendAudio' :=
    SendAudio World.Exists World.zero_Message snd World.embedSendOptions
      World.json_Unmarshal_received (World.answers "ok") "token"
      (Recipient_R := World.chat) in
  SendAudio' "alice"%string (Some audio) None
  = Send_return
      [Call_sendFile "sendAudio" "token" "audio" "/tmp/a.mp3"
         [("chat_id", "alice")]%string]
      audio' result None
  /\ World.Exists (Media_File audio') = true
  /\ exists params : Params,
       calls_of (SendAudio' "bob"%string (Some audio') (Some tt))
       = [Call_sendCommand "sendAudio" "token" params]
       /\ Params_get "audio" params = Some "on the server"%string.
Proof.
  split; [reflexivity|]. split; [reflexivity|].
  apply (@send_media_again_does_not_upload unit unit World.Message unit
           World.Exists World.zero_Message snd World.embedSendOptions
           World.json_Unmarshal_received (World.answers "ok") "token"%string
           string World.chat "sendAudio"%string "audio"%string
           "alice"%string "bob"%string
           (mkMedia (mkFile "" "/tmp/a.mp3" tt) tt)
           (mkMedia (mkFile "on the server" "/tmp/a.mp3" tt) tt)
           None (Some tt)
           [Call_sendFile "sendAudio" "token" "audio" "/tmp/a.mp3"
              [("chat_id", "alice")]%string]
           ([mkThumbnail (mkFile "small" "" tt) tt;
             mkThumbnail (mkFile "large" "" tt) tt],
            mkMedia (mkFile "on the server" "" tt) tt));
    reflexivity.
Defined.

Lemma SendPhoto_panics_without_thumbnails_witness :
  let p : Photo unit unit := mkPhoto (mkFile "" "/tmp/p.jpg" tt) "a cat" tt in
  let received : messageResponseReceived World.Message :=
    mkMessageResponseReceived true World.zero_Message "" in
  (forall c : call, World.answers "no sizes" c = ("no sizes"%string, None))
  /\ World.json_Unmarshal_received "no sizes"
       (mkMessageResponseReceived false World.zero_Message EmptyString)
     = (received, None)
  /\ Received_Ok received = true
  /\ fst (Received_Result received) = []
  /\ exists c : call,
       SendPhoto World.Exists World.zero_Message fst World.embedSendOptions
         World.json_Unmarshal_received (World.answers "no sizes") "token"
         (Recipient_R := World.chat) "alice"%string (Some p) None
       = Send_panic [c].
Proof.
  split; [reflexivity|]. split; [reflexivity|]. split; [reflexivity|].
  split; [reflexivity|].
  apply (@SendPhoto_panics_without_thumbnails unit unit unit World.Message unit
           World.Exists World.zero_Message fst World.embedSendOptions
           World.json_Unmarshal_received (World.answers "no sizes")
           "token"%string string World.chat "alice"%string
           (mkPhoto (mkFile "" "/tmp/p.jpg" tt) "a cat" tt) None
           "no sizes"%string
           (mkMessageResponseReceived true World.zero_Message ""));
    reflexivity.
Defined.

Lemma SendPhoto_object_witness :
  let p : Photo unit unit := mkPhoto (mkFile "" "/tmp/p.jpg" tt) "a cat" tt in
  let p' : Photo unit unit :=
    mkPhoto (mkFile "large" "/tmp/p.jpg" tt) "a cat" tt in
  let result : World.Message :=
    ([mkThumbnail (mkFile "small" "" tt) tt;
      mkThumbnail (mkFile "large" "" tt) tt],
     mkMedia (mkFile "on the server" "" tt) tt) in
  let calls :=
    [Call_sendFile "sendPhoto" "token" "photo" "/tmp/p.jpg"
       [("caption", "a cat"); ("chat_id", "alice")]%string] in
  SendPhoto World.Exists World.zero_Message fst World.embedSendOptions
    World.json_Unmarshal_received (World.answers "ok") "token"
    (Recipient_R := World.chat) "alice"%string (Some p) None
  = Send_return calls p' result None
  /\ Photo_Caption p' = Photo_Caption p
  /\ Photo_fields p' = Photo_fields p
  /\ File_filename (Photo_File p') = File_filename (Photo_File p)
  /\ exists front t,
       fst result = front ++ [t]
       /\ File_FileID (Photo_File p') = File_FileID (Thumbnail_File t)
       /\ File_fields (Photo_File p') = File_fields (Thumbnail_File t).
Proof.
  split; [reflexivity|].
  apply (@SendPhoto_object unit unit unit World.Message unit
           World.Exists World.zero_Message fst World.embedSendOptions
           World.json_Unmarshal_received (World.answers "ok") "token"%string
           string World.chat "alice"%string
           (mkPhoto (mkFile "" "/tmp/p.jpg" tt) "a cat" tt)
           (mkPhoto (mkFile "large" "/tmp/p.jpg" tt) "a cat" tt)
           None
           [Call_sendFile "sendPhoto" "token" "photo" "/tmp/p.jpg"
              [("caption", "a cat"); ("chat_id", "alice")]%string]
           ([mkThumbnail (mkFile "small" "" tt) tt;
             mkThumbnail (mkFile "large" "" tt) tt],
            mkMedia (mkFile "on the server" "" tt) tt)
           None).
  reflexivity.
Defined.

Lemma send_media_object_witness :
  let audio : Media unit unit := mkMedia (mkFile "" "/tmp/a.mp3" tt) tt in
  let audio' : Media unit unit :=
    mkMedia (mkFile "on the server" "/tmp/a.mp3" tt) tt in
  let result : World.Message :=
    ([mkThumbnail (mkFile "small" "" tt) tt;
      mkThumbnail (mkFile "large" "" tt) tt],
     mkMedia (mkFile "on the server" "" tt) tt) in
  let calls :=
    [Call_sendFile "sendAudio" "token" "audio" "/tmp/a.mp3"
       [("chat_id", "alice")]%string] in
  SendAudio World.Exists World.zero_Message snd World.embedSendOptions
    World.json_Unmarshal_received (World.answers "ok") "token"
    (Recipient_R := World.chat) "alice"%string (Some audio) None
  = Send_return calls audio' result None
  /\ List.length calls = 1%nat
  /\ File_filename (Media_File audio') = File_filename (Media_File audio)
  /\ File_FileID (Media_File audio') = File_FileID (Media_File (snd result))
  /\ File_fields (Media_File audio') = File_fields (Media_File (snd result))
  /\ Media_fields audio' = Media_fields (snd result).
Proof.
  split; [reflexivity|].
  apply (@send_media_object unit unit World.Message unit
           World.Exists World.zero_Message snd World.embedSendOptions
           World.json_Unmarshal_received (World.answers "ok") "token"%string
           string World.chat "sendAudio"%string "audio"%string "alice"%string
           (mkMedia (mkFile "" "/tmp/a.mp3" tt) tt)
           (mkMedia (mkFile "on the server" "/tmp/a.mp3" tt) tt)
           None
           [Call_sendFile "sendAudio" "token" "audio" "/tmp/a.mp3"
              [("chat_id", "alice")]%string]
           ([mkThumbnail (mkFile "small" "" tt) tt;
             mkThumbnail (mkFile "large" "" tt) tt],
            mkMedia (mkFile "on the server" "" tt) tt)
           None).
  reflexivity.
Defined.
